(** * Light Rail Next Train: a shallow embedding of [src/App.tsx]

    The single React component [App] is modelled in three layers:

    - JavaScript strings (sequences of UTF-16 code units), the object
      literal [STATIONS] with [Object.entries] and property lookup, and
      the memoised search [filteredStations];
    - the API payload types and the JSX of [App] as a function from the
      four state variables to a view tree, inside a completion monad so
      that a [TypeError] raised while rendering is a value of the model;
    - the event loop: mount, typing, clicking a dropdown item, ticks of
      the 20 s interval, settlement of outstanding axios requests and
      unmount, as an executable step function on an explicit state. *)

From Stdlib Require Import List NArith ZArith Bool Ascii String Lia.
Import ListNotations.

(* ================================================================= *)
(** ** JavaScript strings *)

(** A JavaScript string is a sequence of UTF-16 code units. *)
Definition jsstring := list N.

Open Scope N_scope.

(** Source literals are written in this file as UTF-8 text; [utf8_units]
    turns the bytes into the code units the JavaScript engine holds
    (one unit per character of the Basic Multilingual Plane, a surrogate
    pair above it, U+FFFD for a truncated sequence). *)
Fixpoint utf8_units (bs : list N) : jsstring :=
  match bs with
  | [] => []
  | b0 :: r0 =>
    if b0 <? 128 then b0 :: utf8_units r0
    else
      match r0 with
      | [] => [65533]
      | b1 :: r1 =>
        if b0 <? 224 then ((b0 mod 32) * 64 + b1 mod 64) :: utf8_units r1
        else
          match r1 with
          | [] => [65533]
          | b2 :: r2 =>
            if b0 <? 240 then
              ((b0 mod 16) * 4096 + (b1 mod 64) * 64 + b2 mod 64)
                :: utf8_units r2
            else
              match r2 with
              | [] => [65533]
              | b3 :: r3 =>
                let cp := (b0 mod 8) * 262144 + (b1 mod 64) * 4096
                          + (b2 mod 64) * 64 + b3 mod 64 in
                let v := cp - 65536 in
                (55296 + v / 1024) :: (56320 + v mod 1024) :: utf8_units r3
              end
          end
      end
  end.

Definition js (s : string) : jsstring :=
  utf8_units (map N_of_ascii (list_ascii_of_string s)).

(** [a === b] on strings. *)
Fixpoint strict_eq (a b : jsstring) : bool :=
  match a, b with
  | [], [] => true
  | x :: a', y :: b' => (x =? y) && strict_eq a' b'
  | _, _ => false
  end.

(** Truthiness of a string: only the empty string is falsy. *)
Definition truthy_string (s : jsstring) : bool :=
  match s with [] => false | _ :: _ => true end.

(** [s.startsWith(q)] and [s.includes(q)]. *)
Fixpoint startsWith (s q : jsstring) : bool :=
  match q, s with
  | [], _ => true
  | _ :: _, [] => false
  | x :: q', y :: s' => (x =? y) && startsWith s' q'
  end.

Fixpoint includes (s q : jsstring) : bool :=
  startsWith s q || match s with [] => false | _ :: s' => includes s' q end.

(** What [toLowerCase] does to one code unit of the ASCII range. *)
Definition lowerUnit (u : N) : N :=
  if (65 <=? u) && (u <=? 90) then u + 32 else u.

Definition lowerASCII (s : jsstring) : jsstring := map lowerUnit s.

(** Code units on which [String.prototype.toLowerCase] is known without
    the Unicode case tables: ASCII, the CJK unified ideographs
    U+4E00..U+9FFF and the full-width parentheses U+FF08 and U+FF09.
    Every string of [STATIONS] is made of these. *)
Definition plain (u : N) : bool :=
  (u <? 128) || ((19968 <=? u) && (u <=? 40959)) || (u =? 65288) || (u =? 65289).

(* ================================================================= *)
(** ** Objects used as records of strings *)

(** An object literal with string values: its own properties in the
    order they were created. *)
Definition Object := list (jsstring * jsstring).

Definition digit (u : N) : option N :=
  if (48 <=? u) && (u <=? 57) then Some (u - 48) else None.

Fixpoint parse_digits (acc : N) (s : jsstring) : option N :=
  match s with
  | [] => Some acc
  | u :: s' =>
    match digit u with
    | Some d => parse_digits (10 * acc + d) s'
    | None => None
    end
  end.

(** A property key is an array index when it is the canonical decimal
    form of an integer below 2^32 - 1. *)
Definition array_index (k : jsstring) : option N :=
  match k with
  | [] => None
  | u :: rest =>
    if (u =? 48) && truthy_string rest then None
    else
      match parse_digits 0 k with
      | Some n => if n <? 4294967295 then Some n else None
      | None => None
      end
  end.

Fixpoint insert_index (e : N * (jsstring * jsstring))
         (l : list (N * (jsstring * jsstring))) :=
  match l with
  | [] => [e]
  | x :: l' => if fst e <? fst x then e :: l else x :: insert_index e l'
  end.

Fixpoint index_properties (o : Object) : list (N * (jsstring * jsstring)) :=
  match o with
  | [] => []
  | (k, v) :: o' =>
    match array_index k with
    | Some n => insert_index (n, (k, v)) (index_properties o')
    | None => index_properties o'
    end
  end.

Definition named_properties (o : Object) : Object :=
  filter (fun kv => match array_index (fst kv) with
                    | Some _ => false
                    | None => true
                    end) o.

(** [Object.entries(o)]: array-index keys in ascending numeric order,
    then the other keys in creation order. *)
Definition Object_entries (o : Object) : list (jsstring * jsstring) :=
  map snd (index_properties o) ++ named_properties o.

(** [o[k]] as far as the own properties of [o] go: the value of the own
    property [k], and [None] when [o] has no own property [k]. The
    lookup then yields [undefined], unless [k] names a member of
    [Object.prototype] ([constructor], [toString], ...), which is
    inherited; the component only looks up keys of its table. *)
Fixpoint get (o : Object) (k : jsstring) : option jsstring :=
  match o with
  | [] => None
  | (k', v) :: o' => if strict_eq k' k then Some v else get o' k
  end.

(* ================================================================= *)
(** ** The station table *)

Definition STATIONS : Object :=
  map (fun kv => (js (fst kv), js (snd kv)))
  [ ("1", "Tuen Mun Ferry Pier (屯門碼頭)");
    ("10", "Melody Garden (美樂)");
    ("15", "Butterfly (蝴蝶)");
    ("20", "Light Rail Depot (輕鐵車廠)");
    ("30", "Lung Mun (龍門)");
    ("40", "Tsing Shan Tsuen (青山村)");
    ("50", "Tsing Wun (青雲)");
    ("60", "Kin On (建安)");
    ("70", "Ho Tin (河田)");
    ("75", "Choy Yee Bridge (蔡意橋)");
    ("80", "Affluence (澤豐)");
    ("90", "Tuen Mun Hospital (屯門醫院)");
    ("100", "Siu Hong (兆康)");
    ("110", "Kei Lun (麒麟)");
    ("120", "Ching Chung (青松)");
    ("130", "Kin Sang (建生)");
    ("140", "Tin King (田景)");
    ("150", "Leung King (良景)");
    ("160", "San Wai (新圍)");
    ("170", "Shek Pai (石排)");
    ("180", "Shan King (North) (山景（北）)");
    ("190", "Shan King (South) (山景（南）)");
    ("200", "Ming Kum (鳴琴)");
    ("212", "Tai Hing (North) (大興（北）)");
    ("220", "Tai Hing (South) (大興（南）)");
    ("230", "Ngan Wai (銀圍)");
    ("240", "Siu Hei (兆禧)");
    ("250", "Tuen Mun Swimming Pool (屯門泳池)");
    ("260", "Goodview Garden (豐景園)");
    ("265", "Siu Lun (兆麟)");
    ("270", "On Ting (安定)");
    ("275", "Yau Oi (友愛)");
    ("280", "Town Centre (市中心)");
    ("295", "Tuen Mun (屯門)");
    ("300", "Pui To (杯渡)");
    ("310", "Hoh Fuk Tong (何福堂)");
    ("320", "San Hui (新墟)");
    ("330", "Prime View (景峰)");
    ("340", "Fung Tei (鳳地)");
    ("350", "Lam Tei (藍地)");
    ("360", "Nai Wai (泥圍)");
    ("370", "Chung Uk Tsuen (鍾屋村)");
    ("380", "Hung Shui Kiu (洪水橋)");
    ("390", "Tong Fong Tsuen (塘坊村)");
    ("400", "Ping Shan (屏山)");
    ("425", "Hang Mei Tsuen (坑尾村)");
    ("430", "Tin Shui Wai (天水圍)");
    ("435", "Tin Tsz (天慈)");
    ("445", "Tin Yiu (天耀)");
    ("448", "Locwood (樂湖)");
    ("450", "Tin Wu (天湖)");
    ("455", "Ginza (銀座)");
    ("460", "Tin Shui (天瑞)");
    ("468", "Chung Fu (頌富)");
    ("480", "Tin Fu (天富)");
    ("490", "Chestwood (翠湖)");
    ("500", "Tin Wing (天榮)");
    ("510", "Tin Yuet (天悅)");
    ("520", "Tin Sau (天秀)");
    ("530", "Wetland Park (濕地公園)");
    ("540", "Tin Heng (天恒)");
    ("550", "Tin Yat (天逸)");
    ("560", "Shui Pin Wai (水邊圍)");
    ("570", "Fung Nin Road (豐年路)");
    ("580", "Hong Lok Road (康樂路)");
    ("590", "Tai Tong Road (大棠路)");
    ("600", "Yuen Long (元朗)");
    ("920", "Sam Shing (三聖)") ]%string.

(* ================================================================= *)
(** ** The API payload *)

Inductive ArrivalDeparture := A | D.

(** JSON numbers of the payload are integers ([Z]). *)
Record Route := {
  train_length : Z;
  arrival_departure : ArrivalDeparture;
  dest_en : jsstring;
  dest_ch : jsstring;
  time_en : jsstring;
  time_ch : jsstring;
  route_no : jsstring;
  stop : Z
}.

(** An optional field that is missing from the payload is [None]. *)
Record Platform := {
  platform_id : Z;
  route_list : option (list Route)
}.

Record ApiResponse := {
  status : Z;
  system_time : jsstring;
  platform_list : option (list Platform)
}.

(* ================================================================= *)
(** ** Completions *)

Inductive JsError := TypeError.

(** Evaluating an expression either yields a value or throws. *)
Inductive completion (T : Type) :=
| Normal (v : T)
| Throw (e : JsError).

Arguments Normal {T} v.
Arguments Throw {T} e.

Definition bind {T U : Type} (c : completion T) (k : T -> completion U) : completion U :=
  match c with
  | Normal v => k v
  | Throw e => Throw e
  end.

Notation "x <- c ;; k" := (bind c (fun x => k))
  (at level 61, c at next level, right associativity).

Fixpoint mapM {T U : Type} (f : T -> completion U) (l : list T) : completion (list U) :=
  match l with
  | [] => Normal []
  | x :: l' => y <- f x ;; ys <- mapM f l' ;; Normal (y :: ys)
  end.

(** [xs?.length]: [undefined] when [xs] is missing. *)
Definition optional_length {T : Type} (xs : option (list T)) : option nat :=
  option_map (@List.length T) xs.

(** Truthiness of [xs?.length]: [undefined] and [0] are falsy. *)
Definition truthy_length (n : option nat) : bool :=
  match n with
  | Some (S _) => true
  | _ => false
  end.

(** [xs.map(f)]: reading [map] of [undefined] throws a [TypeError]. *)
Definition Array_map {T U : Type} (xs : option (list T)) (f : T -> completion U)
  : completion (list U) :=
  match xs with
  | Some l => mapM f l
  | None => Throw TypeError
  end.

(* ================================================================= *)
(** ** The view tree *)

(** One [div.route-item]; React keys are not part of what is shown. *)
Record RouteItem := {
  className : jsstring;
  item_route_no : jsstring;
  item_dest_en : jsstring;
  item_dest_ch : jsstring;
  item_time_en : jsstring;
  item_time_ch : jsstring;
  item_length : jsstring
}.

Inductive RoutesView :=
| RouteItems (items : list RouteItem)
| RoutesText (text : jsstring).

Record PlatformCard := {
  card_header : Z;
  card_routes : RoutesView
}.

Inductive PlatformsView :=
| PlatformCards (cards : list PlatformCard)
| PlatformsText (text : jsstring).

Inductive MainView :=
| Schedule (title : option jsstring) (platforms : PlatformsView) (updated : jsstring)
| MainText (text : jsstring).

Inductive Dropdown :=
| DropdownText (text : jsstring)
| DropdownItems (items : list (jsstring * jsstring)).

Record View := {
  search_box : jsstring;
  dropdown : option Dropdown;
  spinner : bool;
  main : MainView
}.

Definition NO_STATION := js "No station found".
Definition NO_ROUTES := js "No routes available for this platform".
Definition NO_PLATFORMS := js "No platform information available.".
Definition NO_DATA := js "No data available or service error. Please try again.".

(** The class attribute is a space separated list of tokens. *)
Fixpoint tokens_aux (cur : jsstring) (s : jsstring) : list jsstring :=
  match s with
  | [] => match cur with [] => [] | _ :: _ => [rev cur] end
  | u :: s' =>
    if u =? 32 then
      match cur with
      | [] => tokens_aux [] s'
      | _ :: _ => rev cur :: tokens_aux [] s'
      end
    else tokens_aux (u :: cur) s'
  end.

Definition classList (s : jsstring) : list jsstring := tokens_aux [] s.

Definition has_class (c : jsstring) (item : RouteItem) : bool :=
  existsb (strict_eq c) (classList (className item)).

(* ================================================================= *)
(** ** The component *)

(** The URL of [axios.get] in [fetchData]. *)
Definition schedule_url (id : jsstring) : jsstring :=
  js "https://rt.data.gov.hk/v1/transport/mtr/lrt/getSchedule?station_id=" ++ id.

(** The function of the interval: [setInterval(() => fetchData(selectedId), 20000)];
    [captured_id] is the [selectedId] of the render whose effect armed it. *)
Record Timer := {
  period_ms : N;
  captured_id : jsstring
}.

Inductive AxiosError :=
| NetworkError
| BadStatus (code : Z).

(** How the promise of [axios.get] settles. *)
Inductive Settled :=
| Fulfilled (res_data : ApiResponse)
| Rejected (err : AxiosError).

Inductive Phase := Fresh | Live | Disposed.

(** The four [useState] cells, and around them what the component owns
    in its environment: its life cycle, the armed interval, the requests
    not settled yet (request number and URL), the number of requests
    issued so far, and what [console.error] has received. *)
Record State := {
  search : jsstring;
  selectedId : jsstring;
  data : option ApiResponse;
  loading : bool;
  phase : Phase;
  interval : option Timer;
  inflight : list (nat * jsstring);
  issued : nat;
  console : list AxiosError
}.

Definition init : State :=
  {| search := js "";
     selectedId := js "600";
     data := None;
     loading := false;
     phase := Fresh;
     interval := None;
     inflight := [];
     issued := 0;
     console := [] |}.

Definition setSearch (v : jsstring) (s : State) : State :=
  {| search := v; selectedId := selectedId s; data := data s;
     loading := loading s; phase := phase s; interval := interval s;
     inflight := inflight s; issued := issued s; console := console s |}.

Definition setSelectedId (v : jsstring) (s : State) : State :=
  {| search := search s; selectedId := v; data := data s;
     loading := loading s; phase := phase s; interval := interval s;
     inflight := inflight s; issued := issued s; console := console s |}.

Definition setData (v : option ApiResponse) (s : State) : State :=
  {| search := search s; selectedId := selectedId s; data := v;
     loading := loading s; phase := phase s; interval := interval s;
     inflight := inflight s; issued := issued s; console := console s |}.

Definition setLoading (v : bool) (s : State) : State :=
  {| search := search s; selectedId := selectedId s; data := data s;
     loading := v; phase := phase s; interval := interval s;
     inflight := inflight s; issued := issued s; console := console s |}.

Definition set_phase (v : Phase) (s : State) : State :=
  {| search := search s; selectedId := selectedId s; data := data s;
     loading := loading s; phase := v; interval := interval s;
     inflight := inflight s; issued := issued s; console := console s |}.

Definition set_interval (v : option Timer) (s : State) : State :=
  {| search := search s; selectedId := selectedId s; data := data s;
     loading := loading s; phase := phase s; interval := v;
     inflight := inflight s; issued := issued s; console := console s |}.

Definition console_error (err : AxiosError) (s : State) : State :=
  {| search := search s; selectedId := selectedId s; data := data s;
     loading := loading s; phase := phase s; interval := interval s;
     inflight := inflight s; issued := issued s; console := console s ++ [err] |}.

(** [axios.get(url)] is called: one more request is outstanding. *)
Definition axios_get (url : jsstring) (s : State) : State :=
  {| search := search s; selectedId := selectedId s; data := data s;
     loading := loading s; phase := phase s; interval := interval s;
     inflight := inflight s ++ [(issued s, url)]; issued := S (issued s);
     console := console s |}.

(** The request numbered [n] leaves the outstanding ones. *)
Definition settle_request (n : nat) (s : State) : State :=
  {| search := search s; selectedId := selectedId s; data := data s;
     loading := loading s; phase := phase s; interval := interval s;
     inflight := filter (fun q => negb (Nat.eqb (fst q) n)) (inflight s);
     issued := issued s; console := console s |}.

(** [fetchData(id)] up to its [await]. *)
Definition fetchData (id : jsstring) (s : State) : State :=
  axios_get (schedule_url id) (setLoading true s).

(** [fetchData] from its [await] on: the [try] continues with the
    response, or the [catch] runs, and then the [finally]. *)
Definition fetchData_resume (r : Settled) (s : State) : State :=
  let s1 :=
    match r with
    | Fulfilled res_data => setData (Some res_data) s
    | Rejected err => setData None (console_error err s)
    end in
  setLoading false s1.

(** The body of the [useEffect] and the clean-up it returns; the effect
    reads the [selectedId] of the render it belongs to. *)
Definition effect (s : State) : State :=
  let id := selectedId s in
  set_interval (Some {| period_ms := 20000; captured_id := id |}) (fetchData id s).

Definition cleanup (s : State) : State := set_interval None s.

Inductive Event :=
| Mount
| Unmount
| Input (text : jsstring)
| Click (i : nat)
| Tick
| Settle (n : nat) (r : Settled).

Definition is_live (s : State) : bool :=
  match phase s with Live => true | _ => false end.

Section App.

(** [String.prototype.toLowerCase] is a built-in driven by the Unicode
    case tables; it is a parameter of the model. *)
Variable toLowerCase : jsstring -> jsstring.

(** [new Date(t).toLocaleTimeString('en-HK')], which depends on the
    time zone of the host. *)
Variable toLocaleTimeString : jsstring -> jsstring.

(** The [useMemo] callback of [filteredStations], as a function of the
    state variable [search]. *)
Definition filteredStations (search : jsstring) : list (jsstring * jsstring) :=
  if negb (truthy_string search) then Object_entries STATIONS
  else
    let lower := toLowerCase search in
    filter (fun '(id, name) =>
              includes (toLowerCase name) lower
              || includes name search
              || strict_eq id search)
           (Object_entries STATIONS).

(** The JSX of one route. *)
Definition render_route (route : Route) : RouteItem :=
  {| className :=
       js "route-item "
         ++ (if (train_length route =? 2)%Z then js "coupled" else js "")
         ++ js " "
         ++ (if strict_eq (time_en route) (js "-") then js "arriving" else js "")
         ++ js " "
         ++ (if (stop route =? 1)%Z then js "stopped" else js "");
     item_route_no := route_no route;
     item_dest_en := dest_en route;
     item_dest_ch := dest_ch route;
     item_time_en := time_en route;
     item_time_ch := time_ch route;
     item_length :=
       if (train_length route =? 1)%Z then js "Single" else js "Coupled" |}.

(** The JSX of one platform card. *)
Definition render_platform (platform : Platform) : completion PlatformCard :=
  routes <-
    (if truthy_length (optional_length (route_list platform)) then
       items <- Array_map (route_list platform)
                          (fun route => Normal (render_route route)) ;;
       Normal (RouteItems items)
     else Normal (RoutesText NO_ROUTES)) ;;
  Normal {| card_header := platform_id platform; card_routes := routes |}.

(** The [main] element below the spinner. *)
Definition render_main (data : option ApiResponse) (selectedId : jsstring)
  : completion MainView :=
  match data with
  | Some d =>
    if (status d =? 1)%Z then
      platforms <-
        (if truthy_length (optional_length (platform_list d)) then
           cards <- Array_map (platform_list d) render_platform ;;
           Normal (PlatformCards cards)
         else Normal (PlatformsText NO_PLATFORMS)) ;;
      Normal (Schedule (get STATIONS selectedId) platforms
                       (if truthy_string (system_time d)
                        then toLocaleTimeString (system_time d)
                        else js ""))
    else Normal (MainText NO_DATA)
  | None => Normal (MainText NO_DATA)
  end.

(** The dropdown under the search box. *)
Definition render_dropdown (search : jsstring) : option Dropdown :=
  if truthy_string search then
    Some (match filteredStations search with
          | [] => DropdownText NO_STATION
          | items => DropdownItems items
          end)
  else None.

(** What [App] returns for given values of its state variables. *)
Definition App (search selectedId : jsstring) (data : option ApiResponse)
           (loading : bool) : completion View :=
  m <- render_main data selectedId ;;
  Normal {| search_box := search;
            dropdown := render_dropdown search;
            spinner := loading;
            main := m |}.

(** What is on screen: nothing before mount and after unmount. *)
Definition screen (s : State) : option (completion View) :=
  if is_live s then Some (App (search s) (selectedId s) (data s) (loading s))
  else None.

(** The [onClick] of the dropdown item at position [i]: both setters,
    then, when [selectedId] has changed, the committed render cleans
    the old effect up and runs the new one. *)
Definition onClick (i : nat) (s : State) : option State :=
  if truthy_string (search s) then
    match nth_error (filteredStations (search s)) i with
    | Some (id, _) =>
      let s1 := setSearch (js "") (setSelectedId id s) in
      Some (if strict_eq id (selectedId s) then s1 else effect (cleanup s1))
    | None => None
    end
  else None.

(** One turn of the event loop; [None] when the event cannot happen in
    the state. A commit and the effects it schedules are one turn. A
    request may settle after unmount: [fetchData] resumes all the same,
    and its setters write to cells that nothing displays any more. *)
Definition step (e : Event) (s : State) : option State :=
  match e with
  | Mount =>
    match phase s with
    | Fresh => Some (effect (set_phase Live s))
    | _ => None
    end
  | Unmount =>
    if is_live s then Some (set_phase Disposed (cleanup s)) else None
  | Input text =>
    if is_live s then Some (setSearch text s) else None
  | Click i =>
    if is_live s then onClick i s else None
  | Tick =>
    match interval s with
    | Some t => Some (fetchData (captured_id t) s)
    | None => None
    end
  | Settle n r =>
    if existsb (fun q => Nat.eqb (fst q) n) (inflight s)
    then Some (fetchData_resume r (settle_request n s))
    else None
  end.

Fixpoint run (evs : list Event) (s : State) : option State :=
  match evs with
  | [] => Some s
  | e :: evs' =>
    match step e s with
    | Some s' => run evs' s'
    | None => None
    end
  end.

End App.

(** The platform cards and the route entries a view shows. *)
Definition shown_cards (m : MainView) : list PlatformCard :=
  match m with
  | Schedule _ (PlatformCards cards) _ => cards
  | _ => []
  end.

Definition shown_items (c : PlatformCard) : list RouteItem :=
  match card_routes c with
  | RouteItems items => items
  | RoutesText _ => []
  end.

Definition with_platform_list (v : option (list Platform)) (d : ApiResponse) : ApiResponse :=
  {| status := status d; system_time := system_time d; platform_list := v |}.

Definition with_route_list (v : option (list Route)) (p : Platform) : Platform :=
  {| platform_id := platform_id p; route_list := v |}.

(** Sample payloads. *)
Definition route_761P : Route :=
  {| train_length := 2; arrival_departure := D;
     dest_en := js "Tin Yat"; dest_ch := js "天逸";
     time_en := js "-"; time_ch := js "-";
     route_no := js "761P"; stop := 1 |}.

Definition route_610 : Route :=
  {| train_length := 1; arrival_departure := A;
     dest_en := js "Tuen Mun Ferry Pier"; dest_ch := js "屯門碼頭";
     time_en := js "4 min"; time_ch := js "4 分鐘";
     route_no := js "610"; stop := 0 |}.

Definition route_long : Route :=
  {| train_length := 3; arrival_departure := D;
     dest_en := js "Siu Hong"; dest_ch := js "兆康";
     time_en := js "9 min"; time_ch := js "9 分鐘";
     route_no := js "615"; stop := 0 |}.

Definition payload_yuen_long : ApiResponse :=
  {| status := 1; system_time := js "2024-05-01 08:00:10";
     platform_list :=
       Some [ {| platform_id := 1; route_list := Some [route_761P; route_610] |};
              {| platform_id := 2; route_list := None |} ] |}.

Definition payload_ferry_pier : ApiResponse :=
  {| status := 1; system_time := js "2024-05-01 08:00:12";
     platform_list :=
       Some [ {| platform_id := 4; route_list := Some [route_610] |} ] |}.

Definition payload_no_platforms : ApiResponse :=
  {| status := 1; system_time := js "2024-05-01 08:00:14";
     platform_list := None |}.

Definition payload_closed : ApiResponse :=
  {| status := 0; system_time := js "2024-05-01 03:00:00";
     platform_list := None |}.

(** The state in which mounting leaves the component. *)
Definition mounted : State := effect (set_phase Live init).

(** The mounted component after "1" was typed, after the station 1 was
    then clicked, and after a first tick came before any settlement. *)
Definition typed_1 : State := setSearch (js "1") mounted.

Definition selected_1 : State :=
  effect (cleanup (setSearch (js "") (setSelectedId (js "1") typed_1))).

Definition refreshing : State := fetchData (js "600") mounted.

(** The component showing the schedule of Yuen Long. *)
Definition showing : State :=
  fetchData_resume (Fulfilled payload_yuen_long) (settle_request 0 mounted).

(** The causes of the rejections among the events, in order. *)
Fixpoint rejections (evs : list Event) : list AxiosError :=
  match evs with
  | [] => []
  | Settle _ (Rejected err) :: evs' => err :: rejections evs'
  | _ :: evs' => rejections evs'
  end.

(** The snapshot a settled request leaves behind. *)
Definition outcome (r : Settled) : option ApiResponse :=
  match r with
  | Fulfilled res_data => Some res_data
  | Rejected _ => None
  end.

(** What holds of every state the component can be in: an armed interval
    belongs to a mounted component and captured the current selection,
    and the loading flag is only up while a request is outstanding. *)
Record Inv (s : State) : Prop := {
  inv_interval :
    forall t, interval s = Some t ->
              captured_id t = selectedId s /\ period_ms t = 20000 /\ phase s = Live;
  inv_loading : loading s = true -> inflight s <> []
}.

(** [q] occurs in [s] as a block of consecutive code units. *)
Definition occurs_in (q s : jsstring) : Prop :=
  exists pre post, s = pre ++ q ++ post.

(** [l1] is [l2] with some elements left out, the others in order. *)
Inductive subsequence {T : Type} : list T -> list T -> Prop :=
| subsequence_nil : subsequence [] []
| subsequence_skip x l1 l2 : subsequence l1 l2 -> subsequence l1 (x :: l2)
| subsequence_keep x l1 l2 : subsequence l1 l2 -> subsequence (x :: l1) (x :: l2).

(** A code unit [0]..[9]. *)
Definition is_digit (u : N) : bool := (48 <=? u) && (u <=? 57).

(** The routes a platform carries: none when the list is missing. *)
Definition routes_of (p : Platform) : list Route :=
  match route_list p with
  | Some l => l
  | None => []
  end.

(** The texts of a route in the payload and of an entry on screen. *)
Definition route_texts (r : Route) :=
  (route_no r, dest_en r, dest_ch r, time_en r, time_ch r).

Definition item_texts (it : RouteItem) :=
  (item_route_no it, item_dest_en it, item_dest_ch it,
   item_time_en it, item_time_ch it).

(** The card [c] shows the platform [p]: its id in the header and its
    routes, one entry each, in the order of the payload. *)
Definition shows (p : Platform) (c : PlatformCard) : Prop :=
  card_header c = platform_id p
  /\ map item_texts (shown_items c) = map route_texts (routes_of p).

(** What holds of the outstanding requests in every state: they are
    numbered apart, below the count of issued requests, and each asks
    for the schedule of a station of the table; so does the selection. *)
Record Requests_ok (s : State) : Prop := {
  req_numbers : forall n url, In (n, url) (inflight s) -> (n < issued s)%nat;
  req_apart : NoDup (map fst (inflight s));
  req_station :
    forall n url, In (n, url) (inflight s) ->
                  exists id name, In (id, name) STATIONS /\ url = schedule_url id;
  req_selected : exists name, In (selectedId s, name) STATIONS
}.

(* ================================================================= *)
(** ** Strings and the station table *)

Lemma strict_eq_iff (a b : jsstring) : strict_eq a b = true <-> a = b.
Proof.
  revert b; induction a as [|x a IH]; intros [|y b]; simpl; split;
    try congruence; try reflexivity.
  - intros H. apply andb_true_iff in H as [Hxy Hab].
    apply N.eqb_eq in Hxy. apply IH in Hab. congruence.
  - intros H. injection H as -> ->. rewrite N.eqb_refl. simpl. now apply IH.
Qed.

Lemma strict_eq_refl (a : jsstring) : strict_eq a a = true.
Proof. now apply strict_eq_iff. Qed.

Lemma startsWith_iff (s q : jsstring) :
  startsWith s q = true <-> exists post, s = q ++ post.
Proof.
  revert s; induction q as [|x q IH]; intros s; simpl.
  - split; [intros _; now exists s | intros _; now destruct s].
  - destruct s as [|y s].
    + split; [discriminate | intros [post H]; discriminate].
    + simpl. rewrite andb_true_iff, N.eqb_eq, IH. split.
      * intros [-> [post ->]]. now exists post.
      * intros [post H]. injection H as -> ->. split; [reflexivity | now exists post].
Qed.

Lemma includes_iff (s q : jsstring) : includes s q = true <-> occurs_in q s.
Proof.
  unfold occurs_in. induction s as [|y s IH].
  - cbn [includes]. rewrite orb_false_r, startsWith_iff. split.
    + intros [post H]. exists [], post. exact H.
    + intros [pre [post H]]. destruct pre; [now exists post | discriminate].
  - cbn [includes]. rewrite orb_true_iff, IH, startsWith_iff. split.
    + intros [[post H] | [pre [post H]]].
      * exists [], post. exact H.
      * exists (y :: pre), post. simpl. now rewrite H.
    + intros [[|z pre] [post H]].
      * left. now exists post.
      * right. injection H as -> ->. now exists pre, post.
Qed.

Lemma filter_subsequence {T : Type} (f : T -> bool) (l : list T) :
  subsequence (filter f l) l.
Proof.
  induction l as [|x l IH]; simpl.
  - constructor.
  - destruct (f x); now constructor.
Qed.

Lemma subsequence_refl {T : Type} (l : list T) : subsequence l l.
Proof. induction l; now constructor. Qed.

Lemma entries_STATIONS : Object_entries STATIONS = STATIONS.
Proof. vm_compute. reflexivity. Qed.

Lemma STATIONS_plain :
  forallb (fun kv => forallb plain (fst kv) && forallb plain (snd kv)) STATIONS = true.
Proof. vm_compute. reflexivity. Qed.

Lemma lowerASCII_plain (s : jsstring) :
  forallb plain s = true -> forallb plain (lowerASCII s) = true.
Proof.
  induction s as [|u s IH]; simpl; [reflexivity|].
  rewrite !andb_true_iff. intros [Hu Hs]. split; [|now apply IH].
  unfold lowerUnit, plain in *.
  destruct ((65 <=? u) && (u <=? 90)) eqn:E; [|exact Hu].
  apply andb_true_iff in E as [E1 E2].
  apply N.leb_le in E1, E2.
  assert ((u + 32 <? 128) = true) as -> by (apply N.ltb_lt; lia).
  reflexivity.
Qed.

(** Lower-cased containment is containment of some string that differs
    from the query by the case of its ASCII letters only. *)
Lemma occurs_lowerASCII (q s : jsstring) :
  occurs_in (lowerASCII q) (lowerASCII s) <->
  exists q', lowerASCII q' = lowerASCII q /\ occurs_in q' s.
Proof.
  unfold occurs_in, lowerASCII. split.
  - intros [pre [post H]].
    apply map_eq_app in H as [s1 [s23 [-> [H1 H23]]]].
    apply map_eq_app in H23 as [s2 [s3 [-> [H2 H3]]]].
    exists s2. split; [exact H2 | now exists s1, s3].
  - intros [q' [Hq [pre [post ->]]]].
    exists (map lowerUnit pre), (map lowerUnit post).
    now rewrite !map_app, Hq.
Qed.

Example js_yuen_long : js "元朗" = [20803; 26391].
Proof. reflexivity. Qed.

Example search_tin_upper :
  map fst (filteredStations lowerASCII (js "TIN WU")) = [js "450"].
Proof. vm_compute. reflexivity. Qed.

Section SearchProperties.

Variable toLowerCase : jsstring -> jsstring.

(** On strings made of ASCII and of characters without case the
    built-in only moves [A]..[Z] to [a]..[z]. *)
Hypothesis toLowerCase_plain :
  forall s, forallb plain s = true -> toLowerCase s = lowerASCII s.

Local Abbreviation filtered := (filteredStations toLowerCase).

Lemma filteredStations_empty : filtered (js "") = Object_entries STATIONS.
Proof. reflexivity. Qed.

Lemma filteredStations_subsequence (q : jsstring) :
  subsequence (filtered q) STATIONS.
Proof.
  unfold filteredStations. rewrite entries_STATIONS.
  destruct (negb (truthy_string q)).
  - apply subsequence_refl.
  - apply filter_subsequence.
Qed.

Lemma filteredStations_In (q id name : jsstring) :
  In (id, name) (filtered q) <->
  In (id, name) STATIONS /\
  (q = [] \/ occurs_in (toLowerCase q) (toLowerCase name)
   \/ occurs_in q name \/ id = q).
Proof.
  unfold filteredStations. rewrite entries_STATIONS.
  destruct q as [|u q]; simpl negb; cbv iota.
  - split; [intros H; split; [exact H | now left] | now intros [H _]].
  - rewrite filter_In, !orb_true_iff, !includes_iff, strict_eq_iff.
    split.
    + intros [H [[H1 | H1] | H1]]; split; auto.
    + intros [H [H1 | [H1 | [H1 | H1]]]]; [discriminate | | |]; split; auto.
Qed.

(** With a query of plain characters the built-in can be computed. *)
Lemma filteredStations_plain (q : jsstring) :
  forallb plain q = true -> filtered q = filteredStations lowerASCII q.
Proof.
  intros Hq. unfold filteredStations.
  destruct (negb (truthy_string q)); [reflexivity|].
  rewrite (toLowerCase_plain q Hq).
  apply filter_ext_in. intros [id name] Hin.
  rewrite entries_STATIONS in Hin.
  pose proof STATIONS_plain as HP.
  rewrite forallb_forall in HP. specialize (HP _ Hin).
  apply andb_true_iff in HP as [_ Hname]. simpl in Hname.
  now rewrite (toLowerCase_plain name Hname).
Qed.

(** For a query of plain characters the two name tests together say:
    the name contains the query up to the case of ASCII letters. *)
Lemma filteredStations_ignoring_case (q id name : jsstring) :
  forallb plain q = true ->
  In (id, name) (filtered q) <->
  In (id, name) STATIONS /\
  (q = [] \/ (exists q', lowerASCII q' = lowerASCII q /\ occurs_in q' name)
   \/ id = q).
Proof.
  intros Hq. rewrite filteredStations_In. split.
  - intros [Hin H]. split; [exact Hin|].
    pose proof STATIONS_plain as HP.
    rewrite forallb_forall in HP. specialize (HP _ Hin).
    apply andb_true_iff in HP as [_ Hname]. simpl in Hname.
    rewrite (toLowerCase_plain q Hq), (toLowerCase_plain name Hname) in H.
    destruct H as [H | [H | [H | H]]]; auto.
    + right. left. now apply occurs_lowerASCII.
    + right. left. now exists q.
  - intros [Hin H]. split; [exact Hin|].
    pose proof STATIONS_plain as HP.
    rewrite forallb_forall in HP. specialize (HP _ Hin).
    apply andb_true_iff in HP as [_ Hname]. simpl in Hname.
    rewrite (toLowerCase_plain q Hq), (toLowerCase_plain name Hname).
    destruct H as [H | [H | H]]; auto.
    right. left. now apply occurs_lowerASCII.
Qed.

(** C6: the search with the empty query returns every station of the
    directory, in the order in which the fixed table [STATIONS] lists
    them: [Object.entries] enumerates the keys, all of them array
    indices, in ascending numeric order, which is the order of the
    literal. *)
Theorem C6_empty_query_lists_table_in_order :
  filtered (js "") = Object_entries STATIONS
  /\ Object_entries STATIONS = STATIONS
  /\ List.length (filtered (js "")) = 68%nat.
Proof.
  split; [reflexivity|]. split; [exact entries_STATIONS|].
  rewrite filteredStations_empty, entries_STATIONS. reflexivity.
Qed.

(** C5 (amended): for every query the search returns, in table order,
    exactly the stations whose display name (the single string
    "English (Chinese)") contains the query, either after both are
    lower-cased or verbatim, or whose id is equal to the query; the
    empty query returns all. An id that merely contains the query is
    not matched. For a query of ASCII and caseless characters the name
    test is containment up to the case of the ASCII letters. [search("600")] is exactly station 600, and
    [search("Yuen Long")] and [search("元朗")] are exactly station 600
    too. *)
Theorem C5_search_by_name_or_exact_id :
  (forall q id name,
      In (id, name) (filtered q) <->
      In (id, name) STATIONS /\
      (q = [] \/ occurs_in (toLowerCase q) (toLowerCase name)
       \/ occurs_in q name \/ id = q))
  /\ (forall q, subsequence (filtered q) STATIONS)
  /\ (forall q id name, forallb plain q = true ->
        (In (id, name) (filtered q) <->
         In (id, name) STATIONS /\
         (q = [] \/ (exists q', lowerASCII q' = lowerASCII q /\ occurs_in q' name)
          \/ id = q)))
  /\ filtered (js "600") = [(js "600", js "Yuen Long (元朗)")]
  /\ filtered (js "Yuen Long") = [(js "600", js "Yuen Long (元朗)")]
  /\ filtered (js "元朗") = [(js "600", js "Yuen Long (元朗)")].
Proof.
  split; [exact filteredStations_In|].
  split; [exact filteredStations_subsequence|].
  split; [exact filteredStations_ignoring_case|].
  repeat split; (rewrite filteredStations_plain; [|reflexivity]);
    vm_compute; reflexivity.
Qed.

End SearchProperties.

(** Witness of C5: the ASCII lower-casing is an instance of the built-in. *)
Lemma C5_witness :
  filteredStations lowerASCII (js "600") = [(js "600", js "Yuen Long (元朗)")].
Proof.
  apply (C5_search_by_name_or_exact_id lowerASCII (fun s _ => eq_refl)).
Defined.

(** C5 as stated fails: the id "600" contains the query "60", but the
    search for "60" does not return station 600 (it returns station 60
    alone). And the query "g (" returns station 600 although neither its
    English name, nor its Chinese name, nor its id contains it: the test
    is on the whole display name. *)
Lemma C5_id_containing_query_not_matched :
  includes (js "600") (js "60") = true
  /\ In (js "600", js "Yuen Long (元朗)") STATIONS
  /\ filteredStations lowerASCII (js "60") = [(js "60", js "Kin On (建安)")]
  /\ ~ In (js "600", js "Yuen Long (元朗)") (filteredStations lowerASCII (js "60"))
  /\ includes (js "Yuen Long") (js "g (") = false
  /\ includes (js "元朗") (js "g (") = false
  /\ includes (js "600") (js "g (") = false
  /\ In (js "600", js "Yuen Long (元朗)") (filteredStations lowerASCII (js "g (")).
Proof.
  split; [reflexivity|]. split.
  - apply (in_map (fun kv => (js (fst kv), js (snd kv))) _ ("600", "Yuen Long (元朗)")%string).
    repeat (try (left; reflexivity); right).
  - split; [vm_compute; reflexivity|]. split.
    + intros H. vm_compute in H. intuition discriminate.
    + repeat (split; [reflexivity|]).
      apply (filteredStations_In lowerASCII). split.
      * apply (in_map (fun kv => (js (fst kv), js (snd kv))) _
                      ("600", "Yuen Long (元朗)")%string).
        repeat (try (left; reflexivity); right).
      * right. right. left. now exists (js "Yuen Lon"), (js "元朗)").
Qed.

(* ================================================================= *)
(** ** Rendering *)

Lemma mapM_pure {T U : Type} (f : T -> U) (l : list T) :
  mapM (fun x => Normal (f x)) l = Normal (map f l).
Proof.
  induction l as [|x l IH]; simpl; [reflexivity|]. now rewrite IH.
Qed.

Lemma mapM_app {T U : Type} (f : T -> completion U) (l1 l2 : list T) cs1 cs2 :
  mapM f l1 = Normal cs1 -> mapM f l2 = Normal cs2 ->
  mapM f (l1 ++ l2) = Normal (cs1 ++ cs2).
Proof.
  revert cs1; induction l1 as [|x l1 IH]; simpl; intros cs1 H1 H2.
  - injection H1 as <-. exact H2.
  - destruct (f x) as [y|e]; simpl in *; [|discriminate].
    destruct (mapM f l1) as [ys|e]; simpl in *; [|discriminate].
    injection H1 as <-. now rewrite (IH ys eq_refl H2).
Qed.

Lemma render_platform_no_routes (p : Platform) :
  route_list p = None \/ route_list p = Some [] ->
  render_platform p =
  Normal {| card_header := platform_id p; card_routes := RoutesText NO_ROUTES |}.
Proof.
  unfold render_platform. intros [-> | ->]; reflexivity.
Qed.

Lemma render_platform_routes (p : Platform) (r : Route) (rs : list Route) :
  route_list p = Some (r :: rs) ->
  render_platform p =
  Normal {| card_header := platform_id p;
            card_routes := RouteItems (map render_route (r :: rs)) |}.
Proof.
  unfold render_platform. intros ->.
  cbn [optional_length option_map List.length truthy_length Array_map].
  now rewrite mapM_pure.
Qed.

Lemma render_platform_total (p : Platform) :
  exists c, render_platform p = Normal c /\ card_header c = platform_id p.
Proof.
  destruct (route_list p) as [[|r rs]|] eqn:E.
  - eexists; split; [apply render_platform_no_routes; now right | reflexivity].
  - eexists; split; [now apply render_platform_routes with (1 := E) | reflexivity].
  - eexists; split; [apply render_platform_no_routes; now left | reflexivity].
Qed.

Lemma render_platforms_total (l : list Platform) :
  exists cs, mapM render_platform l = Normal cs /\ List.length cs = List.length l.
Proof.
  induction l as [|p l [cs [IH Hlen]]]; simpl.
  - now exists [].
  - destruct (render_platform_total p) as [c [Hc _]].
    rewrite Hc, IH. simpl. exists (c :: cs). simpl. now rewrite Hlen.
Qed.

Lemma className_cases (route : Route) :
  has_class (js "coupled") (render_route route) = (train_length route =? 2)%Z
  /\ has_class (js "arriving") (render_route route) = strict_eq (time_en route) (js "-")
  /\ has_class (js "stopped") (render_route route) = (stop route =? 1)%Z.
Proof.
  unfold has_class, render_route; cbn [className].
  destruct (train_length route =? 2)%Z, (strict_eq (time_en route) (js "-")),
    (stop route =? 1)%Z; vm_compute; auto.
Qed.

Section RenderProperties.

Variable toLowerCase : jsstring -> jsstring.
Variable toLocaleTimeString : jsstring -> jsstring.

Local Abbreviation main_view := (render_main toLocaleTimeString).
Local Abbreviation App_view := (App toLowerCase toLocaleTimeString).

Lemma render_main_no_data (d : ApiResponse) (sid : jsstring) :
  status d <> 1%Z -> main_view (Some d) sid = Normal (MainText NO_DATA).
Proof.
  intros H. unfold render_main.
  destruct (Z.eqb_spec (status d) 1); [contradiction | reflexivity].
Qed.

Lemma render_main_no_platforms (d : ApiResponse) (sid : jsstring) :
  status d = 1%Z ->
  platform_list d = None \/ platform_list d = Some [] ->
  main_view (Some d) sid =
  Normal (Schedule (get STATIONS sid) (PlatformsText NO_PLATFORMS)
                   (if truthy_string (system_time d)
                    then toLocaleTimeString (system_time d) else js "")).
Proof.
  intros Hs H. unfold render_main. rewrite Hs.
  destruct H as [-> | ->]; reflexivity.
Qed.

Lemma render_main_platforms (d : ApiResponse) (sid : jsstring) p ps :
  status d = 1%Z ->
  platform_list d = Some (p :: ps) ->
  exists cards,
    mapM render_platform (p :: ps) = Normal cards /\
    main_view (Some d) sid =
    Normal (Schedule (get STATIONS sid) (PlatformCards cards)
                     (if truthy_string (system_time d)
                      then toLocaleTimeString (system_time d) else js "")).
Proof.
  intros Hs H. destruct (render_platforms_total (p :: ps)) as [cards [Hc _]].
  exists cards. split; [exact Hc|].
  unfold render_main. rewrite Hs, H.
  cbn [optional_length option_map List.length truthy_length Array_map Z.eqb Pos.eqb].
  now rewrite Hc.
Qed.

Lemma render_main_total (data : option ApiResponse) (sid : jsstring) :
  exists m, main_view data sid = Normal m.
Proof.
  destruct data as [d|]; [|now eexists].
  destruct (Z.eq_dec (status d) 1) as [Hs|Hs].
  - destruct (platform_list d) as [[|p ps]|] eqn:E.
    + eexists. apply render_main_no_platforms; auto.
    + destruct (render_main_platforms d sid p ps Hs E) as [cards [_ H]]. eexists; exact H.
    + eexists. apply render_main_no_platforms; auto.
  - eexists. now apply render_main_no_data.
Qed.

Lemma App_total q sid data l : exists v, App_view q sid data l = Normal v.
Proof.
  unfold App. destruct (render_main_total data sid) as [m ->].
  simpl. now eexists.
Qed.

(** C2 (amended): the payload is not normalized when it is decoded:
    [fetchData] stores the response as it came, so a missing
    [platform_list] or [route_list] is still missing in the snapshot.
    Absence is dealt with where the snapshot is rendered, and there a
    missing list behaves as an empty one. A payload without
    [platform_list] is shown exactly as the same payload with an empty
    list: rendering does not throw and shows no platform. A platform
    without [route_list] is shown exactly as with an empty list: its
    card is there, with no route entry; the cards of the platforms
    before and after it are what they are without it, and a platform
    with routes shows one entry per route, in order. *)
Theorem C2_missing_lists_kept_and_shown_as_empty :
  (forall d s,
     data (fetchData_resume (Fulfilled d) s) = Some d
     /\ option_map platform_list (data (fetchData_resume (Fulfilled d) s))
        = Some (platform_list d))
  /\ (forall d sid, platform_list d = None ->
     main_view (Some d) sid = main_view (Some (with_platform_list (Some []) d)) sid
     /\ exists m, main_view (Some d) sid = Normal m /\ shown_cards m = [])
  /\ (forall p, route_list p = None ->
     render_platform p = render_platform (with_route_list (Some []) p)
     /\ exists c, render_platform p = Normal c
                  /\ card_header c = platform_id p /\ shown_items c = [])
  /\ (forall d sid pre p post,
     status d = 1%Z -> platform_list d = Some (pre ++ p :: post) ->
     route_list p = None ->
     exists cs1 c cs2 title updated,
       mapM render_platform pre = Normal cs1
       /\ mapM render_platform post = Normal cs2
       /\ shown_items c = [] /\ card_header c = platform_id p
       /\ main_view (Some d) sid =
          Normal (Schedule title (PlatformCards (cs1 ++ c :: cs2)) updated))
  /\ (forall q r rs, route_list q = Some (r :: rs) ->
     render_platform q =
     Normal {| card_header := platform_id q;
               card_routes := RouteItems (map render_route (r :: rs)) |}).
Proof.
  split; [intros d s; split; reflexivity|].
  split; [|split; [|split]].
  - intros d sid H. split.
    + unfold render_main, with_platform_list. cbn [status platform_list system_time].
      rewrite H. reflexivity.
    + unfold render_main. rewrite H.
      destruct (status d =? 1)%Z; eexists; split; reflexivity.
  - intros p H. split.
    + rewrite !render_platform_no_routes; auto.
    + eexists. split; [apply render_platform_no_routes; auto|]. split; reflexivity.
  - intros d sid pre p post Hs Hl Hp.
    destruct (render_platforms_total pre) as [cs1 [H1 _]].
    destruct (render_platforms_total post) as [cs2 [H2 _]].
    pose proof (render_platform_no_routes p (or_introl Hp)) as Hc.
    assert (Hall : mapM render_platform (pre ++ p :: post)
                   = Normal (cs1 ++ {| card_header := platform_id p;
                                       card_routes := RoutesText NO_ROUTES |} :: cs2)).
    { apply mapM_app; [exact H1|]. simpl. now rewrite Hc, H2. }
    exists cs1, {| card_header := platform_id p; card_routes := RoutesText NO_ROUTES |}, cs2.
    destruct (pre ++ p :: post) as [|p0 ps0] eqn:E; [now destruct pre|].
    destruct (render_main_platforms d sid p0 ps0 Hs Hl) as [cards [Hcards Hm]].
    rewrite Hall in Hcards. injection Hcards as <-.
    do 2 eexists. repeat split; [exact H1 | exact H2 | exact Hm].
  - intros q r rs H. now apply render_platform_routes.
Qed.

(** C3 (amended): a transport failure clears the snapshot, logs the
    cause and shows the generic message. A response whose status is
    not 1 is kept as the snapshot and nothing is logged, and the same
    generic message is shown. A response with status 1 and a missing
    or empty platform list shows the station title with the text "No
    platform information available.", and a platform with a missing or
    empty route list shows "No routes available for this platform".
    Rendering never throws. *)
Theorem C3_failure_and_no_data_at_the_view :
  (forall err s,
     let s' := fetchData_resume (Rejected err) s in
     data s' = None /\ console s' = console s ++ [err] /\ loading s' = false
     /\ main_view (data s') (selectedId s') = Normal (MainText NO_DATA))
  /\ (forall d s, status d <> 1%Z ->
     let s' := fetchData_resume (Fulfilled d) s in
     data s' = Some d /\ console s' = console s /\ loading s' = false
     /\ main_view (data s') (selectedId s') = Normal (MainText NO_DATA))
  /\ (forall d sid, status d = 1%Z ->
     platform_list d = None \/ platform_list d = Some [] ->
     exists updated,
       main_view (Some d) sid =
       Normal (Schedule (get STATIONS sid) (PlatformsText NO_PLATFORMS) updated))
  /\ (forall p, route_list p = None \/ route_list p = Some [] ->
     render_platform p =
     Normal {| card_header := platform_id p; card_routes := RoutesText NO_ROUTES |})
  /\ (forall q sid data l, exists v, App_view q sid data l = Normal v).
Proof.
  split; [|split; [|split; [|split]]].
  - intros err s. cbn. repeat split.
  - intros d s H. cbn. repeat split. now apply render_main_no_data.
  - intros d sid Hs H. eexists. now apply render_main_no_platforms.
  - exact render_platform_no_routes.
  - exact App_total.
Qed.

End RenderProperties.

(** C7: the marks of a route entry. The classes follow the payload
    ("arriving" exactly for the display time "-", "stopped" exactly for
    stop 1, "coupled" exactly for train length 2), and the length label
    reads "Single" exactly for train length 1 and "Coupled" otherwise.
    For a train length other than 1 and 2 the two disagree: the entry
    [route_long] of length 3 has no "coupled" class and the label
    "Coupled". *)
Theorem C7_route_marks :
  (forall route,
      has_class (js "arriving") (render_route route) = strict_eq (time_en route) (js "-")
      /\ has_class (js "stopped") (render_route route) = (stop route =? 1)%Z
      /\ has_class (js "coupled") (render_route route) = (train_length route =? 2)%Z
      /\ item_length (render_route route) =
         if (train_length route =? 1)%Z then js "Single" else js "Coupled")
  /\ train_length route_long = 3%Z
  /\ has_class (js "coupled") (render_route route_long) = false
  /\ item_length (render_route route_long) = js "Coupled".
Proof.
  split.
  - intros route. destruct (className_cases route) as [H1 [H2 H3]].
    repeat split; assumption || reflexivity.
  - repeat split.
Qed.

(* ================================================================= *)
(** ** The event loop *)

Lemma Inv_init : Inv init.
Proof. split; [discriminate | discriminate]. Qed.

Lemma app_not_nil {T : Type} (l : list T) (x : T) : l ++ [x] <> [].
Proof. destruct l; discriminate. Qed.

Lemma Inv_effect (s : State) : phase s = Live -> Inv (effect s).
Proof.
  intros H. split; cbn.
  - intros t [= <-]. cbn. auto.
  - intros _. apply app_not_nil.
Qed.

Lemma Inv_fetchData (id : jsstring) (s : State) : Inv s -> Inv (fetchData id s).
Proof.
  intros [Ht _]. split; cbn.
  - exact Ht.
  - intros _. apply app_not_nil.
Qed.

Lemma Inv_resume (r : Settled) (n : nat) (s : State) :
  Inv s -> Inv (fetchData_resume r (settle_request n s)).
Proof.
  intros [Ht _]. split.
  - destruct r; exact Ht.
  - destruct r; discriminate.
Qed.

Section LoopProperties.

Variable toLowerCase : jsstring -> jsstring.
Variable toLocaleTimeString : jsstring -> jsstring.

Local Abbreviation next := (step toLowerCase).
Local Abbreviation runs := (run toLowerCase).
Local Abbreviation on_screen := (screen toLowerCase toLocaleTimeString).
Local Abbreviation main_view := (render_main toLocaleTimeString).

Lemma Inv_step (e : Event) (s s' : State) :
  Inv s -> next e s = Some s' -> Inv s'.
Proof.
  intros HI H. destruct e; cbn in H.
  - destruct (phase s) eqn:E; try discriminate. injection H as <-.
    now apply Inv_effect.
  - unfold is_live in H. destruct (phase s) eqn:E; try discriminate.
    injection H as <-. destruct HI as [_ Hl]. split; [discriminate | exact Hl].
  - unfold is_live in H. destruct (phase s) eqn:E; try discriminate.
    injection H as <-. destruct HI as [Ht Hl]. split; [exact Ht | exact Hl].
  - unfold is_live in H. destruct (phase s) eqn:E; try discriminate.
    unfold onClick in H.
    destruct (truthy_string (search s)); try discriminate.
    destruct (nth_error _ i) as [[id name]|]; try discriminate.
    injection H as <-.
    destruct (strict_eq id (selectedId s)) eqn:Eid.
    + apply strict_eq_iff in Eid. subst id.
      destruct HI as [Ht Hl]. split; [exact Ht | exact Hl].
    + now apply Inv_effect.
  - destruct (interval s) as [t|]; try discriminate. injection H as <-.
    now apply Inv_fetchData.
  - destruct (existsb _ (inflight s)); try discriminate. injection H as <-.
    now apply Inv_resume.
Qed.

Lemma Inv_run (evs : list Event) (s s' : State) :
  Inv s -> runs evs s = Some s' -> Inv s'.
Proof.
  revert s; induction evs as [|e evs IH]; intros s HI H; cbn in H.
  - now injection H as <-.
  - destruct (next e s) as [s1|] eqn:E; [|discriminate].
    apply (IH s1); [now apply Inv_step with (2 := E) | exact H].
Qed.

Lemma reachable_Inv (evs : list Event) (s : State) :
  runs evs init = Some s -> Inv s.
Proof. apply Inv_run, Inv_init. Qed.

(** The selection is always a key of the table, so that the title
    [STATIONS[selectedId]] is an own property of the object. *)
Lemma selected_step (e : Event) (s s' : State) :
  (exists name, In (selectedId s, name) STATIONS) ->
  next e s = Some s' ->
  exists name, In (selectedId s', name) STATIONS.
Proof.
  intros HI H. destruct e; cbn in H.
  - destruct (phase s); try discriminate. now injection H as <-.
  - destruct (is_live s); try discriminate. now injection H as <-.
  - destruct (is_live s); try discriminate. now injection H as <-.
  - destruct (is_live s); try discriminate. unfold onClick in H.
    destruct (truthy_string (search s)); try discriminate.
    destruct (nth_error _ i) as [[id name]|] eqn:E; try discriminate.
    injection H as <-.
    apply nth_error_In, filteredStations_In in E. destruct E as [E _].
    destruct (strict_eq id (selectedId s)); now exists name.
  - destruct (interval s); try discriminate. now injection H as <-.
  - destruct (existsb _ (inflight s)); try discriminate. injection H as <-.
    now destruct r.
Qed.

Lemma get_In (o : Object) (k v : jsstring) :
  In (k, v) o -> exists v', get o k = Some v'.
Proof.
  induction o as [|[k0 v0] o IH]; intros H; [contradiction|].
  cbn [get]. destruct (strict_eq k0 k) eqn:E; [now eexists|].
  destruct H as [[= -> ->]|H]; [|now apply IH].
  now rewrite strict_eq_refl in E.
Qed.

Lemma title_defined (evs : list Event) (s : State) :
  runs evs init = Some s -> exists name, get STATIONS (selectedId s) = Some name.
Proof.
  intros Hrun.
  assert (H : exists name, In (selectedId s, name) STATIONS).
  { assert (H0 : exists name, In (selectedId init, name) STATIONS).
    { exists (js "Yuen Long (元朗)").
      apply (in_map (fun kv => (js (fst kv), js (snd kv))) _
                    ("600", "Yuen Long (元朗)")%string).
      repeat (try (left; reflexivity); right). }
    revert Hrun H0. generalize init.
    induction evs as [|e evs IH]; intros s0 Hrun H0; cbn in Hrun.
    - now injection Hrun as <-.
    - destruct (next e s0) as [s1|] eqn:E; [|discriminate].
      apply (IH s1 Hrun). now apply selected_step with (2 := E). }
  destruct H as [name H]. now apply get_In with (v := name).
Qed.

(** After disposal only settlements happen: nothing is armed or sent. *)
Lemma disposed_step (e : Event) (s s' : State) :
  phase s = Disposed -> interval s = None -> next e s = Some s' ->
  phase s' = Disposed /\ interval s' = None /\ issued s' = issued s.
Proof.
  intros Hp Hi H. destruct e; cbn in H; unfold is_live in H;
    rewrite ?Hp, ?Hi in H; try discriminate.
  destruct (existsb _ (inflight s)); [|discriminate].
  injection H as <-. destruct r; cbn; auto.
Qed.

Lemma disposed_run (evs : list Event) (s s' : State) :
  phase s = Disposed -> interval s = None -> runs evs s = Some s' ->
  phase s' = Disposed /\ interval s' = None /\ issued s' = issued s.
Proof.
  revert s; induction evs as [|e evs IH]; intros s Hp Hi H; cbn in H.
  - injection H as <-. auto.
  - destruct (next e s) as [s1|] eqn:E; [|discriminate].
    destruct (disposed_step e s s1 Hp Hi E) as [Hp1 [Hi1 Hn1]].
    destruct (IH s1 Hp1 Hi1 H) as [Hp2 [Hi2 Hn2]].
    rewrite Hn2, Hn1. auto.
Qed.

(** The first dropdown item for the query "1" is station 1, whatever
    the case tables say: its id is equal to the query. *)
Lemma filtered_1_head :
  exists rest,
    filteredStations toLowerCase (js "1")
    = (js "1", js "Tuen Mun Ferry Pier (屯門碼頭)") :: rest.
Proof.
  assert (exists tl, STATIONS = (js "1", js "Tuen Mun Ferry Pier (屯門碼頭)") :: tl)
    as [tl Htl] by (eexists; vm_compute; reflexivity).
  unfold filteredStations. rewrite entries_STATIONS, Htl.
  change (negb (truthy_string (js "1"))) with false. cbv iota.
  cbn [filter]. rewrite strict_eq_refl, orb_true_r.
  eexists. reflexivity.
Qed.

(** C9: at start-up the selection is "600" (Yuen Long), the search
    text is empty, there is no snapshot and nothing is loading or
    armed. Mounting is the only event that can happen then, and it
    sends the request for station 600 at once, as request number 0,
    and arms the 20 s interval; no tick can come before it. *)
Theorem C9_startup :
  search init = js "" /\ selectedId init = js "600" /\ data init = None
  /\ loading init = false /\ inflight init = [] /\ interval init = None
  /\ get STATIONS (selectedId init) = Some (js "Yuen Long (元朗)")
  /\ next Tick init = None
  /\ (forall e s, next e init = Some s -> e = Mount)
  /\ exists s,
      next Mount init = Some s
      /\ inflight s = [(0%nat, schedule_url (js "600"))]
      /\ issued s = 1%nat /\ loading s = true
      /\ selectedId s = js "600" /\ data s = None
      /\ interval s = Some {| period_ms := 20000; captured_id := js "600" |}.
Proof.
  repeat (split; [reflexivity|]). split.
  - intros e s H. destruct e; try reflexivity; discriminate.
  - eexists. repeat split.
Qed.

(** C10: [fetchData] raises the loading flag when it starts, and its
    [finally] lowers it when the request settles, fulfilled or
    rejected. Every event that sends a request leaves the flag up,
    every settlement leaves it down, and in every reachable state a
    raised flag, hence a shown spinner, comes with an outstanding
    request. *)
Theorem C10_loading_flag :
  (forall id s, loading (fetchData id s) = true)
  /\ (forall r s, loading (fetchData_resume r s) = false)
  /\ (forall e s s', next e s = Some s' -> issued s' <> issued s ->
        loading s' = true /\ issued s' = S (issued s))
  /\ (forall n r s s', next (Settle n r) s = Some s' -> loading s' = false)
  /\ (forall evs s, runs evs init = Some s ->
        (loading s = true -> inflight s <> [])
        /\ (forall v, on_screen s = Some (Normal v) -> spinner v = true ->
                      inflight s <> [])).
Proof.
  split; [reflexivity|]. split; [now intros [d|err] s|]. split; [|split].
  - intros e s s' H Hn. destruct e; cbn in H.
    + destruct (phase s); try discriminate. injection H as <-. now split.
    + destruct (is_live s); try discriminate. injection H as <-. now elim Hn.
    + destruct (is_live s); try discriminate. injection H as <-. now elim Hn.
    + destruct (is_live s); try discriminate. unfold onClick in H.
      destruct (truthy_string (search s)); try discriminate.
      destruct (nth_error _ i) as [[id name]|]; try discriminate.
      injection H as <-.
      destruct (strict_eq id (selectedId s)); [now elim Hn | now split].
    + destruct (interval s); try discriminate. injection H as <-. now split.
    + destruct (existsb _ (inflight s)); try discriminate. injection H as <-.
      destruct r; now elim Hn.
  - intros n r s s' H. cbn in H.
    destruct (existsb _ (inflight s)); try discriminate. injection H as <-.
    now destruct r.
  - intros evs s Hrun. pose proof (reachable_Inv evs s Hrun) as [_ Hl].
    split; [exact Hl|]. intros v Hv Hsp. apply Hl.
    unfold screen in Hv. destruct (is_live s); [|discriminate].
    injection Hv as Hv. unfold App in Hv.
    destruct (render_main toLocaleTimeString (data s) (selectedId s));
      cbn in Hv; [|discriminate].
    injection Hv as <-. exact Hsp.
Qed.

End LoopProperties.

Section Overlap.

Variable toLowerCase : jsstring -> jsstring.
Variable toLocaleTimeString : jsstring -> jsstring.

Local Abbreviation next := (step toLowerCase).
Local Abbreviation runs := (run toLowerCase).
Local Abbreviation on_screen := (screen toLowerCase toLocaleTimeString).
Local Abbreviation main_view := (render_main toLocaleTimeString).

Lemma run_step (e : Event) (evs : list Event) (s s' : State) :
  next e s = Some s' -> runs (e :: evs) s = runs evs s'.
Proof. intros H. cbn [run]. now rewrite H. Qed.

Lemma step_settle (n : nat) (url : jsstring) (r : Settled) (s : State) :
  In (n, url) (inflight s) ->
  next (Settle n r) s = Some (fetchData_resume r (settle_request n s)).
Proof.
  intros H. cbn [step].
  assert (existsb (fun q => Nat.eqb (fst q) n) (inflight s) = true) as ->.
  { apply existsb_exists. exists (n, url). split; [exact H | apply Nat.eqb_refl]. }
  reflexivity.
Qed.

Lemma step_click_1 (s : State) :
  is_live s = true -> search s = js "1" ->
  next (Click 0) s =
  Some (let s1 := setSearch (js "") (setSelectedId (js "1") s) in
        if strict_eq (js "1") (selectedId s) then s1 else effect (cleanup s1)).
Proof.
  intros Hl Hs. cbn [step]. rewrite Hl. unfold onClick. rewrite Hs.
  change (truthy_string (js "1")) with true. cbv iota.
  destruct (filtered_1_head toLowerCase) as [rest ->]. reflexivity.
Qed.

(** C1 (amended): settlements are applied in the order in which they
    arrive and are not checked against the current selection: whenever
    an outstanding request settles, whichever station it was sent for,
    the snapshot becomes its result and the selection stays. In the
    scenario where station 1 is selected while the request for 600 is
    outstanding, the request for 1 settles first and the one for 600
    after it, the selection (and the title) is station 1 and the
    snapshot is the late result for 600. *)
Theorem C1_last_settlement_wins :
  (forall s n url r, In (n, url) (inflight s) ->
     exists s', next (Settle n r) s = Some s'
                /\ data s' = outcome r
                /\ selectedId s' = selectedId s
                /\ loading s' = false)
  /\ (forall r1 r600,
     exists s_mid s,
       runs [Mount; Input (js "1"); Click 0] init = Some s_mid
       /\ selectedId s_mid = js "1"
       /\ inflight s_mid = [(0%nat, schedule_url (js "600"));
                            (1%nat, schedule_url (js "1"))]
       /\ runs [Settle 1 r1; Settle 0 r600] s_mid = Some s
       /\ selectedId s = js "1"
       /\ get STATIONS (selectedId s) = Some (js "Tuen Mun Ferry Pier (屯門碼頭)")
       /\ data s = outcome r600
       /\ inflight s = []).
Proof.
  split.
  - intros s n url r H. eexists. split; [apply step_settle with (1 := H)|].
    destruct r; repeat split.
  - intros r1 r600.
    pose (sA := effect (set_phase Live init)).
    pose (sB := setSearch (js "1") sA).
    pose (sC := effect (cleanup (setSearch (js "") (setSelectedId (js "1") sB)))).
    assert (E1 : next Mount init = Some sA) by reflexivity.
    assert (E2 : next (Input (js "1")) sA = Some sB) by reflexivity.
    assert (E3 : next (Click 0) sB = Some sC)
      by (rewrite step_click_1; reflexivity).
    exists sC. eexists. split.
    { rewrite (run_step _ _ _ _ E1), (run_step _ _ _ _ E2), (run_step _ _ _ _ E3).
      reflexivity. }
    split; [reflexivity|]. split; [reflexivity|].
    destruct r1, r600; repeat split.
Qed.

(** C8: the view of the schedule after a request settles is a function
    of the result and of the selected station alone: from any two
    states with the same selection the same result leaves the same
    [main] element. When the interval fetches the same station again
    and the upstream answer is the same, the screen after the second
    settlement is the screen after the first. *)
Theorem C8_same_result_same_view :
  (forall r s1 s2, selectedId s1 = selectedId s2 ->
     let s1' := fetchData_resume r s1 in
     let s2' := fetchData_resume r s2 in
     data s1' = data s2'
     /\ main_view (data s1') (selectedId s1')
        = main_view (data s2') (selectedId s2'))
  /\ (forall n m r s s1 s2 s3,
     next (Settle n r) s = Some s1 ->
     next Tick s1 = Some s2 ->
     next (Settle m r) s2 = Some s3 ->
     data s3 = data s1 /\ on_screen s3 = on_screen s1).
Proof.
  split.
  - intros r s1 s2 H. cbv zeta.
    destruct r;
      cbn [fetchData_resume setLoading setData console_error data selectedId];
      rewrite H; split; reflexivity.
  - intros n m r s s1 s2 s3 H1 H2 H3. cbn in H1, H2, H3.
    destruct (existsb _ (inflight s)); [|discriminate]. injection H1 as <-.
    destruct (interval _) as [t|]; [|discriminate]. injection H2 as <-.
    destruct (existsb _ _); [|discriminate]. injection H3 as <-.
    destruct r; split; reflexivity.
Qed.

End Overlap.

(* ================================================================= *)
(** ** Instances *)

Lemma mounted_reached : run lowerASCII [Mount] init = Some mounted.
Proof. reflexivity. Qed.

(** Witness of C1 at the mounted component, whose request 0 is rejected. *)
Lemma C1_witness :
  In (0%nat, schedule_url (js "600")) (inflight mounted)
  /\ exists s', step lowerASCII (Settle 0 (Rejected NetworkError)) mounted = Some s'
                /\ data s' = outcome (Rejected NetworkError)
                /\ selectedId s' = selectedId mounted
                /\ loading s' = false.
Proof.
  split; [left; reflexivity|].
  apply (proj1 (C1_last_settlement_wins lowerASCII) mounted 0%nat
               (schedule_url (js "600")) (Rejected NetworkError)).
  left; reflexivity.
Defined.

(** C1 as stated fails: station 1 is selected while the request for 600
    is outstanding; the request for 1 settles first, the request for 600
    after it. The selection is station 1, and the snapshot on screen
    under the title of station 1 is the late payload of station 600. *)
Lemma C1_stale_result_overwrites :
  exists s,
    run lowerASCII
        [Mount; Input (js "1"); Click 0;
         Settle 1 (Fulfilled payload_ferry_pier);
         Settle 0 (Fulfilled payload_yuen_long)] init = Some s
    /\ selectedId s = js "1"
    /\ data s = Some payload_yuen_long
    /\ payload_yuen_long <> payload_ferry_pier
    /\ exists v, screen lowerASCII (fun t => t) s = Some (Normal v)
                 /\ main v <> MainText NO_DATA
                 /\ List.length (shown_cards (main v)) = 2%nat.
Proof.
  eexists. split; [vm_compute; reflexivity|].
  split; [reflexivity|]. split; [reflexivity|]. split; [discriminate|].
  eexists. split; [vm_compute; reflexivity|]. split; [discriminate | reflexivity].
Qed.

(** Witness of C2: a payload without platform list, and the payload
    [payload_yuen_long], whose second platform has no route list. *)
Lemma C2_witness :
  platform_list payload_no_platforms = None
  /\ (exists m, render_main (fun t => t) (Some payload_no_platforms) (js "600") = Normal m
                /\ shown_cards m = [])
  /\ exists cs1 c cs2 title updated,
       mapM render_platform
            [ {| platform_id := 1; route_list := Some [route_761P; route_610] |} ]
       = Normal cs1
       /\ mapM render_platform [] = Normal cs2
       /\ shown_items c = [] /\ card_header c = 2%Z
       /\ render_main (fun t => t) (Some payload_yuen_long) (js "600")
          = Normal (Schedule title (PlatformCards (cs1 ++ c :: cs2)) updated).
Proof.
  split; [reflexivity|]. split.
  - apply (proj1 (proj2 (C2_missing_lists_kept_and_shown_as_empty (fun t => t)))
                 payload_no_platforms (js "600") eq_refl).
  - apply (proj1 (proj2 (proj2 (proj2
             (C2_missing_lists_kept_and_shown_as_empty (fun t => t)))))
                 payload_yuen_long (js "600")
                 [ {| platform_id := 1; route_list := Some [route_761P; route_610] |} ]
                 {| platform_id := 2; route_list := None |} []
                 eq_refl eq_refl eq_refl).
Defined.

(** C2 as stated fails: after the request of the mount is fulfilled
    with a payload without [platform_list], the snapshot still has no
    platform list, not an empty one; and the second platform of
    [payload_yuen_long] is stored without its route list. *)
Lemma C2_missing_lists_stored_missing :
  (exists s,
      run lowerASCII [Mount; Settle 0 (Fulfilled payload_no_platforms)] init = Some s
      /\ option_map platform_list (data s) = Some None
      /\ option_map platform_list (data s) <> Some (Some []))
  /\ (exists s,
      run lowerASCII [Mount; Settle 0 (Fulfilled payload_yuen_long)] init = Some s
      /\ option_map platform_list (data s)
         = Some (Some [ {| platform_id := 1;
                           route_list := Some [route_761P; route_610] |};
                        {| platform_id := 2; route_list := None |} ])).
Proof.
  split.
  - eexists. split; [reflexivity|]. split; [reflexivity | discriminate].
  - eexists. split; reflexivity.
Qed.

(** Witness of C3: a payload whose status is 0, and a payload with
    status 1 and no platform list. *)
Lemma C3_witness :
  status payload_closed <> 1%Z
  /\ render_main (fun t => t) (data (fetchData_resume (Fulfilled payload_closed) mounted))
                 (selectedId (fetchData_resume (Fulfilled payload_closed) mounted))
     = Normal (MainText NO_DATA)
  /\ exists updated,
       render_main (fun t => t) (Some payload_no_platforms) (js "600")
       = Normal (Schedule (get STATIONS (js "600")) (PlatformsText NO_PLATFORMS) updated).
Proof.
  assert (H : status payload_closed <> 1%Z) by discriminate.
  split; [exact H|]. split.
  - apply (proj1 (proj2 (C3_failure_and_no_data_at_the_view lowerASCII (fun t => t)))
                 payload_closed mounted H).
  - apply (proj1 (proj2 (proj2 (C3_failure_and_no_data_at_the_view lowerASCII (fun t => t))))
                 payload_no_platforms (js "600") eq_refl (or_introl eq_refl)).
Defined.

(** C3 as stated fails: after a response with status 0 the snapshot is
    not cleared and nothing is logged, unlike after a transport failure;
    and a response with status 1 and no platform list does not show the
    generic message. *)
Lemma C3_no_data_not_handled_as_failure :
  (exists s,
      run lowerASCII [Mount; Settle 0 (Fulfilled payload_closed)] init = Some s
      /\ data s = Some payload_closed /\ console s = [])
  /\ (exists s,
      run lowerASCII [Mount; Settle 0 (Rejected NetworkError)] init = Some s
      /\ data s = None /\ console s = [NetworkError])
  /\ render_main (fun t => t) (Some payload_no_platforms) (js "600")
     = Normal (Schedule (Some (js "Yuen Long (元朗)"))
                        (PlatformsText NO_PLATFORMS)
                        (js "2024-05-01 08:00:14"))
  /\ render_main (fun t => t) (Some payload_no_platforms) (js "600")
     <> Normal (MainText NO_DATA).
Proof.
  split; [eexists; split; [reflexivity | split; reflexivity]|].
  split; [eexists; split; [reflexivity | split; reflexivity]|].
  split; [vm_compute; reflexivity | discriminate].
Qed.

(** Witness of C8: the request of the mount and the request of the first
    tick both settle with the same payload. *)
Lemma C8_witness :
  exists s1 s2 s3,
    step lowerASCII (Settle 0 (Fulfilled payload_yuen_long)) mounted = Some s1
    /\ step lowerASCII Tick s1 = Some s2
    /\ step lowerASCII (Settle 1 (Fulfilled payload_yuen_long)) s2 = Some s3
    /\ data s3 = data s1
    /\ screen lowerASCII (fun t => t) s3 = screen lowerASCII (fun t => t) s1.
Proof.
  do 3 eexists.
  split; [reflexivity|]. split; [reflexivity|]. split; [reflexivity|].
  apply (proj2 (C8_same_result_same_view lowerASCII (fun t => t))
               0%nat 1%nat (Fulfilled payload_yuen_long) mounted _ _ _
               eq_refl eq_refl eq_refl).
Defined.

(** Witness of C10: while the request of the mount is outstanding the
    flag is up; once it has settled the flag is down. *)
Lemma C10_witness :
  run lowerASCII [Mount] init = Some mounted
  /\ loading mounted = true
  /\ inflight mounted <> []
  /\ forall s', step lowerASCII (Settle 0 (Fulfilled payload_yuen_long)) mounted = Some s' ->
                loading s' = false.
Proof.
  split; [reflexivity|]. split; [reflexivity|]. split.
  - apply (proj1 (proj2 (proj2 (proj2 (proj2
             (C10_loading_flag lowerASCII (fun t => t))))) [Mount] mounted eq_refl)).
    reflexivity.
  - apply (proj1 (proj2 (proj2 (proj2 (C10_loading_flag lowerASCII (fun t => t)))))
                 0%nat (Fulfilled payload_yuen_long) mounted).
Defined.


(* ================================================================= *)
(** ** More on the search *)

Lemma lowerUnit_digit (u d : N) :
  is_digit d = true -> lowerUnit u = d -> u = d.
Proof.
  unfold is_digit, lowerUnit. intros Hd.
  apply andb_true_iff in Hd as [H1 H2]. apply N.leb_le in H1, H2.
  destruct ((65 <=? u) && (u <=? 90)) eqn:E; [|auto].
  apply andb_true_iff in E as [E1 E2]. apply N.leb_le in E1, E2. lia.
Qed.

Lemma lowerASCII_digits (q q' : jsstring) :
  forallb is_digit q = true -> lowerASCII q' = lowerASCII q -> q' = q.
Proof.
  revert q'; induction q as [|d q IH]; intros [|u q'] Hd H;
    try reflexivity; try discriminate.
  cbn in Hd, H. apply andb_true_iff in Hd as [Hd Hq].
  injection H as Hu Hrest.
  assert (lowerUnit d = d) as Hdd.
  { unfold lowerUnit, is_digit in *.
    apply andb_true_iff in Hd as [H1 H2]. apply N.leb_le in H1, H2.
    destruct ((65 <=? d) && (d <=? 90)) eqn:E; [|reflexivity].
    apply andb_true_iff in E as [E1 E2]. apply N.leb_le in E1, E2. lia. }
  rewrite Hdd in Hu. apply (lowerUnit_digit u d Hd) in Hu.
  rewrite (IH q' Hq Hrest). now subst.
Qed.

Lemma STATIONS_digits :
  forallb (fun kv => forallb is_digit (fst kv)) STATIONS = true.
Proof. vm_compute. reflexivity. Qed.

Lemma occurs_in_lower (q s : jsstring) :
  occurs_in q s -> occurs_in (lowerASCII q) (lowerASCII s).
Proof.
  intros H. apply occurs_lowerASCII. now exists q.
Qed.

Lemma plain_block (pre q post : jsstring) :
  forallb plain (pre ++ q ++ post) = true -> forallb plain q = true.
Proof.
  rewrite !forallb_app, !andb_true_iff. tauto.
Qed.

Lemma occurs_in_trans (a b c : jsstring) :
  occurs_in a b -> occurs_in b c -> occurs_in a c.
Proof.
  intros [p1 [q1 ->]] [p2 [q2 ->]]. exists (p2 ++ p1), (q1 ++ q2).
  now rewrite <- !app_assoc.
Qed.

Section SearchExtras.

Variable toLowerCase : jsstring -> jsstring.

Hypothesis toLowerCase_plain :
  forall s, forallb plain s = true -> toLowerCase s = lowerASCII s.

Local Abbreviation filtered := (filteredStations toLowerCase).
Local Abbreviation dropdown_of := (render_dropdown toLowerCase).

(** X1: the search does not see the case of ASCII letters: two queries
    of ASCII and caseless characters that are equal once lower-cased
    return the same list of stations. *)
Theorem X1_search_ignores_case (q q' : jsstring) :
  forallb plain q = true -> forallb plain q' = true ->
  lowerASCII q = lowerASCII q' ->
  filtered q = filtered q'.
Proof.
  intros Hq Hq' Hl.
  rewrite (filteredStations_plain toLowerCase toLowerCase_plain q Hq).
  rewrite (filteredStations_plain toLowerCase toLowerCase_plain q' Hq').
  unfold filteredStations.
  destruct q as [|u q], q' as [|u' q']; try discriminate; [reflexivity|].
  cbn [truthy_string negb]. cbv iota. rewrite Hl.
  apply filter_ext_in. intros [id name] Hin.
  rewrite entries_STATIONS in Hin.
  pose proof STATIONS_digits as HD. rewrite forallb_forall in HD.
  specialize (HD _ Hin). cbn [fst] in HD.
  set (a := includes (lowerASCII name) (lowerASCII (u' :: q'))).
  assert (Hb : includes name (u :: q) = true -> a = true).
  { intros H. apply includes_iff in H. apply includes_iff.
    rewrite <- Hl. now apply occurs_in_lower. }
  assert (Hb' : includes name (u' :: q') = true -> a = true).
  { intros H. apply includes_iff in H. apply includes_iff.
    now apply occurs_in_lower. }
  assert (Hc : strict_eq id (u :: q) = strict_eq id (u' :: q')).
  { destruct (strict_eq id (u :: q)) eqn:E1, (strict_eq id (u' :: q')) eqn:E2;
      try reflexivity.
    - apply strict_eq_iff in E1. subst id.
      rewrite (lowerASCII_digits (u :: q) (u' :: q') HD (eq_sym Hl)) in E2.
      now rewrite strict_eq_refl in E2.
    - apply strict_eq_iff in E2. subst id.
      rewrite (lowerASCII_digits (u' :: q') (u :: q) HD Hl) in E1.
      now rewrite strict_eq_refl in E1. }
  rewrite Hc.
  destruct a, (includes name (u :: q)), (includes name (u' :: q')),
    (strict_eq id (u' :: q')); try reflexivity;
    try (now specialize (Hb eq_refl)); now specialize (Hb' eq_refl).
Qed.

(** X2: typing more narrows the matches by name: a station returned for
    a query of ASCII and caseless characters, and not because its id is
    the query, is returned for every non-empty part of the query. *)
Theorem X2_longer_query_narrows_names (q q' id name : jsstring) :
  forallb plain q' = true -> q <> [] -> occurs_in q q' ->
  In (id, name) (filtered q') -> id <> q' ->
  In (id, name) (filtered q).
Proof.
  intros Hq' Hne Hocc Hin Hid.
  assert (Hq : forallb plain q = true).
  { destruct Hocc as [pre [post ->]]. now apply plain_block in Hq'. }
  apply (filteredStations_ignoring_case toLowerCase toLowerCase_plain) in Hin;
    [|exact Hq'].
  apply (filteredStations_ignoring_case toLowerCase toLowerCase_plain);
    [exact Hq|].
  destruct Hin as [Hin H]. split; [exact Hin|].
  destruct H as [-> | [[q'' [Hl Ho]] | H]]; [| |contradiction].
  - destruct Hocc as [pre [post H]]. destruct pre; destruct q; try discriminate.
    now elim Hne.
  - right. left. destruct Hocc as [pre [post ->]].
    unfold lowerASCII in Hl. rewrite !map_app in Hl.
    apply map_eq_app in Hl as [s1 [s23 [-> [H1 H23]]]].
    apply map_eq_app in H23 as [s2 [s3 [-> [H2 H3]]]].
    exists s2. split; [exact H2|].
    apply occurs_in_trans with (b := s1 ++ s2 ++ s3); [now exists s1, s3 | exact Ho].
Qed.

End SearchExtras.

Section DropdownExtras.

Variable toLowerCase : jsstring -> jsstring.

Local Abbreviation filtered := (filteredStations toLowerCase).
Local Abbreviation dropdown_of := (render_dropdown toLowerCase).


End DropdownExtras.

(** Witness of X1: "yuen long" and "YUEN Long". *)
Lemma X1_witness :
  filteredStations lowerASCII (js "yuen long")
  = filteredStations lowerASCII (js "YUEN Long").
Proof.
  apply (X1_search_ignores_case lowerASCII (fun s _ => eq_refl)
           (js "yuen long") (js "YUEN Long")); reflexivity.
Defined.

(** Witness of X2: station 600 is returned for "Yuen Long", hence for "n L". *)
Lemma X2_witness :
  In (js "600", js "Yuen Long (元朗)") (filteredStations lowerASCII (js "n L")).
Proof.
  apply (X2_longer_query_narrows_names lowerASCII (fun s _ => eq_refl)
           (js "n L") (js "Yuen Long") (js "600") (js "Yuen Long (元朗)")).
  - reflexivity.
  - discriminate.
  - now exists (js "Yue"), (js "ong").
  - vm_compute. left. reflexivity.
  - discriminate.
Defined.

(* ================================================================= *)
(** ** More on rendering *)

(** X4: the class attribute of a route entry holds "route-item" and, in
    this order, "coupled" for train length 2, "arriving" for the display
    time "-" and "stopped" for stop 1, and no other class. *)
Theorem X4_class_list (route : Route) :
  classList (className (render_route route)) =
  [js "route-item"]
    ++ (if (train_length route =? 2)%Z then [js "coupled"] else [])
    ++ (if strict_eq (time_en route) (js "-") then [js "arriving"] else [])
    ++ (if (stop route =? 1)%Z then [js "stopped"] else []).
Proof.
  unfold render_route; cbn [className].
  destruct (train_length route =? 2)%Z, (strict_eq (time_en route) (js "-")),
    (stop route =? 1)%Z; vm_compute; reflexivity.
Qed.

Lemma mapM_Forall2 {T U : Type} (f : T -> completion U) (l : list T) (ys : list U) :
  mapM f l = Normal ys -> Forall2 (fun x y => f x = Normal y) l ys.
Proof.
  revert ys; induction l as [|x l IH]; cbn; intros ys H.
  - injection H as <-. constructor.
  - destruct (f x) as [y|e] eqn:E; cbn in H; [|discriminate].
    destruct (mapM f l) as [ys'|e]; cbn in H; [|discriminate].
    injection H as <-. constructor; [exact E | now apply IH].
Qed.

Lemma render_platform_shows (p : Platform) (c : PlatformCard) :
  render_platform p = Normal c -> shows p c.
Proof.
  intros H. destruct (route_list p) as [[|r rs]|] eqn:E.
  - rewrite render_platform_no_routes in H by auto. injection H as <-.
    unfold shows, routes_of, shown_items. now rewrite E.
  - rewrite (render_platform_routes p r rs E) in H. injection H as <-.
    unfold shows, routes_of, shown_items. rewrite E.
    cbn [card_header card_routes]. split; [reflexivity|].
    change (render_route r :: map render_route rs)
      with (map render_route (r :: rs)).
    rewrite map_map. reflexivity.
  - rewrite render_platform_no_routes in H by auto. injection H as <-.
    unfold shows, routes_of, shown_items. now rewrite E.
Qed.

Section RenderExtras.

Variable toLocaleTimeString : jsstring -> jsstring.

Local Abbreviation main_view := (render_main toLocaleTimeString).

(** X5: the schedule is on screen exactly when there is a snapshot whose
    status is 1; otherwise, and only then, the [main] element is the
    generic text. With status 1 the title is [STATIONS[selectedId]],
    whatever the platform list is. *)
Theorem X5_schedule_shown_iff_status_1 (data : option ApiResponse) (sid : jsstring) :
  (main_view data sid = Normal (MainText NO_DATA) <->
   data = None \/ exists d, data = Some d /\ status d <> 1%Z)
  /\ ((exists platforms updated,
         main_view data sid = Normal (Schedule (get STATIONS sid) platforms updated)) <->
      exists d, data = Some d /\ status d = 1%Z).
Proof.
  destruct data as [d|].
  - destruct (Z.eq_dec (status d) 1) as [Hs|Hs].
    + assert (H : exists platforms updated,
                 main_view (Some d) sid
                 = Normal (Schedule (get STATIONS sid) platforms updated)).
      { destruct (platform_list d) as [[|p ps]|] eqn:E.
        - do 2 eexists. apply render_main_no_platforms; auto.
        - destruct (render_main_platforms toLocaleTimeString d sid p ps Hs E)
            as [cards [_ H]].
          do 2 eexists. exact H.
        - do 2 eexists. apply render_main_no_platforms; auto. }
      split; split.
      * intros H0. destruct H as [pv [upd H]]. rewrite H in H0. discriminate.
      * intros [H0 | [d' [[= <-] H0]]]; [discriminate | contradiction].
      * intros _. now exists d.
      * intros _. exact H.
    + pose proof (render_main_no_data toLocaleTimeString d sid Hs) as H.
      split; split.
      * intros _. right. now exists d.
      * intros _. exact H.
      * intros [pv [upd H0]]. rewrite H in H0. discriminate.
      * intros [d' [[= <-] H0]]. contradiction.
  - split; split.
    + intros _. now left.
    + intros _. reflexivity.
    + intros [pv [upd H]]. discriminate.
    + intros [d [H _]]. discriminate.
Qed.

(** X6: with status 1 and at least one platform, the view has one card
    per platform, in the order of the payload; each card carries the
    platform id and one entry per route, in order, with the route
    number, the destinations and the times as the payload gives them. *)
Theorem X6_cards_follow_payload (d : ApiResponse) (sid : jsstring)
        (p : Platform) (ps : list Platform) :
  status d = 1%Z -> platform_list d = Some (p :: ps) ->
  exists m,
    main_view (Some d) sid = Normal m
    /\ Forall2 shows (p :: ps) (shown_cards m)
    /\ List.length (shown_cards m) = List.length (p :: ps).
Proof.
  intros Hs Hl.
  destruct (render_main_platforms toLocaleTimeString d sid p ps Hs Hl)
    as [cards [Hc Hm]].
  eexists. split; [exact Hm|]. cbn [shown_cards].
  apply mapM_Forall2 in Hc.
  assert (HF : Forall2 shows (p :: ps) cards).
  { eapply Forall2_impl; [|exact Hc]. exact render_platform_shows. }
  split; [exact HF|]. symmetry. now apply Forall2_length with (1 := HF).
Qed.

End RenderExtras.

(** Witness of X6 at [payload_yuen_long]. *)
Lemma X6_witness :
  exists m,
    render_main (fun t => t) (Some payload_yuen_long) (js "600") = Normal m
    /\ Forall2 shows
         [ {| platform_id := 1; route_list := Some [route_761P; route_610] |};
           {| platform_id := 2; route_list := None |} ]
         (shown_cards m)
    /\ List.length (shown_cards m) = 2%nat.
Proof.
  apply (X6_cards_follow_payload (fun t => t) payload_yuen_long (js "600")
           {| platform_id := 1; route_list := Some [route_761P; route_610] |}
           [ {| platform_id := 2; route_list := None |} ] eq_refl eq_refl).
Defined.

(* ================================================================= *)
(** ** More on the event loop *)

Lemma STATIONS_get (k v : jsstring) :
  In (k, v) STATIONS -> get STATIONS k = Some v.
Proof.
  assert (H : forallb (fun kv => match get STATIONS (fst kv) with
                                 | Some v' => strict_eq v' (snd kv)
                                 | None => false
                                 end) STATIONS = true)
    by (vm_compute; reflexivity).
  rewrite forallb_forall in H. intros Hin. specialize (H _ Hin).
  cbn [fst snd] in H. destruct (get STATIONS k) as [v'|]; [|discriminate].
  apply strict_eq_iff in H. now subst.
Qed.

Lemma schedule_url_inj (id id' : jsstring) :
  schedule_url id = schedule_url id' -> id = id'.
Proof. unfold schedule_url. apply app_inv_head. Qed.

Lemma Requests_ok_same (s s' : State) :
  inflight s' = inflight s -> issued s' = issued s ->
  (exists name, In (selectedId s', name) STATIONS) ->
  Requests_ok s -> Requests_ok s'.
Proof.
  intros Hi Hn Hsel [H1 H2 H3 _]. split; rewrite ?Hi, ?Hn; assumption.
Qed.

Lemma Requests_ok_sent (id : jsstring) (s s' : State) :
  inflight s' = inflight s ++ [(issued s, schedule_url id)] ->
  issued s' = S (issued s) ->
  selectedId s' = id ->
  (exists name, In (id, name) STATIONS) ->
  Requests_ok s -> Requests_ok s'.
Proof.
  intros Hi Hn Hsel [name Hid] [H1 H2 H3 _]. split; rewrite ?Hi, ?Hn, ?Hsel.
  - intros n url H. apply in_app_or in H as [H | [[= <- _] | []]].
    + apply H1 in H. lia.
    + lia.
  - rewrite map_app. cbn [map fst].
    apply NoDup_app; [exact H2 | repeat constructor; intros [] |].
    intros n Hn1 [<- | []].
    apply in_map_iff in Hn1 as [[n' url] [Heq Hin]]. cbn in Heq. subst n'.
    apply H1 in Hin. lia.
  - intros n url H. apply in_app_or in H as [H | [[= _ <-] | []]].
    + now apply H3 with (n := n).
    + now exists id, name.
  - now exists name.
Qed.

Lemma Requests_ok_settled (n : nat) (s s' : State) :
  inflight s' = filter (fun q => negb (Nat.eqb (fst q) n)) (inflight s) ->
  issued s' = issued s -> selectedId s' = selectedId s ->
  Requests_ok s -> Requests_ok s'.
Proof.
  intros Hi Hn Hsel [H1 H2 H3 H4]. split; rewrite ?Hi, ?Hn, ?Hsel.
  - intros m url H. apply filter_In in H as [H _]. now apply H1 with (url := url).
  - clear -H2. induction (inflight s) as [|[m url] l IH]; cbn; [constructor|].
    inversion H2 as [|? ? Hm Hl]; subst.
    destruct (negb (Nat.eqb m n)); cbn; [|now apply IH].
    constructor; [|now apply IH].
    intros Hin. apply Hm. apply in_map_iff in Hin as [q [Hq Hf]].
    apply filter_In in Hf as [Hf _]. apply in_map_iff. now exists q.
  - intros m url H. apply filter_In in H as [H _]. now apply H3 with (n := m).
  - exact H4.
Qed.

Lemma station_600 : In (js "600", js "Yuen Long (元朗)") STATIONS.
Proof.
  apply (in_map (fun kv => (js (fst kv), js (snd kv))) _
                ("600", "Yuen Long (元朗)")%string).
  repeat (try (left; reflexivity); right).
Qed.

Lemma Requests_ok_init : Requests_ok init.
Proof.
  split.
  - intros n url [].
  - constructor.
  - intros n url [].
  - exists (js "Yuen Long (元朗)"). exact station_600.
Qed.

Lemma render_main_title (toLocaleTimeString : jsstring -> jsstring)
      (data : option ApiResponse) (sid : jsstring)
      (title : option jsstring) (platforms : PlatformsView) (updated : jsstring) :
  render_main toLocaleTimeString data sid = Normal (Schedule title platforms updated) ->
  title = get STATIONS sid.
Proof.
  destruct data as [d|]; [|discriminate].
  destruct (Z.eq_dec (status d) 1) as [Hs|Hs].
  - destruct (platform_list d) as [[|p ps]|] eqn:E.
    + rewrite render_main_no_platforms by auto. now intros [= <- _ _].
    + destruct (render_main_platforms toLocaleTimeString d sid p ps Hs E)
        as [cards [_ ->]]. now intros [= <- _ _].
    + rewrite render_main_no_platforms by auto. now intros [= <- _ _].
  - rewrite render_main_no_data by exact Hs. discriminate.
Qed.

Section ClickExtras.

Variable toLowerCase : jsstring -> jsstring.

Local Abbreviation next := (step toLowerCase).
Local Abbreviation dropdown_of := (render_dropdown toLowerCase).
Local Abbreviation filtered := (filteredStations toLowerCase).

(** X7: a click on the dropdown item at position [i] selects the station
    of that item and closes the dropdown: the search text is emptied and
    the title is the name that was clicked. The snapshot is not touched,
    so the previous schedule stays under the new title until a request
    settles. Clicking the station already selected sends nothing and
    leaves the interval alone; clicking another one sends one request,
    for it, raises the loading flag and re-arms the interval with it. *)
Theorem X7_click_selects_item (i : nat) (s s' : State) :
  next (Click i) s = Some s' ->
  exists id name,
    nth_error (filtered (search s)) i = Some (id, name)
    /\ selectedId s' = id
    /\ get STATIONS (selectedId s') = Some name
    /\ search s' = [] /\ dropdown_of (search s') = None
    /\ data s' = data s
    /\ (id = selectedId s ->
        inflight s' = inflight s /\ issued s' = issued s
        /\ interval s' = interval s /\ loading s' = loading s)
    /\ (id <> selectedId s ->
        inflight s' = inflight s ++ [(issued s, schedule_url id)]
        /\ interval s' = Some {| period_ms := 20000; captured_id := id |}
        /\ loading s' = true).
Proof.
  intros H. cbn in H. destruct (is_live s); try discriminate.
  unfold onClick in H.
  destruct (truthy_string (search s)); try discriminate.
  destruct (nth_error _ i) as [[id name]|] eqn:E; try discriminate.
  exists id, name. split; [reflexivity|].
  assert (Hg : get STATIONS id = Some name).
  { apply STATIONS_get. apply nth_error_In, filteredStations_In in E. tauto. }
  destruct (strict_eq id (selectedId s)) eqn:Eid; injection H as <-.
  - apply strict_eq_iff in Eid.
    repeat (split; [first [reflexivity | exact Hg]|]).
    split; [intros _; repeat split | intros Hne; contradiction].
  - repeat (split; [first [reflexivity | exact Hg]|]).
    split; [intros ->; now rewrite strict_eq_refl in Eid | intros _; repeat split].
Qed.

End ClickExtras.

Section LoopExtras.

Variable toLowerCase : jsstring -> jsstring.
Variable toLocaleTimeString : jsstring -> jsstring.

Local Abbreviation next := (step toLowerCase).
Local Abbreviation runs := (run toLowerCase).
Local Abbreviation on_screen := (screen toLowerCase toLocaleTimeString).
Local Abbreviation dropdown_of := (render_dropdown toLowerCase).
Local Abbreviation filtered := (filteredStations toLowerCase).

Lemma Requests_ok_step (e : Event) (s s' : State) :
  Inv s -> Requests_ok s -> next e s = Some s' -> Requests_ok s'.
Proof.
  intros HI HR H. pose proof (req_selected s HR) as Hsel.
  destruct e; cbn in H.
  - destruct (phase s); try discriminate. injection H as <-.
    now apply (Requests_ok_sent (selectedId s) s).
  - destruct (is_live s); try discriminate. injection H as <-.
    now apply (Requests_ok_same s).
  - destruct (is_live s); try discriminate. injection H as <-.
    now apply (Requests_ok_same s).
  - destruct (is_live s); try discriminate. unfold onClick in H.
    destruct (truthy_string (search s)); try discriminate.
    destruct (nth_error _ i) as [[id name]|] eqn:E; try discriminate.
    injection H as <-.
    apply nth_error_In, filteredStations_In in E. destruct E as [E _].
    destruct (strict_eq id (selectedId s)).
    + apply (Requests_ok_same s); try reflexivity; [now exists name | exact HR].
    + apply (Requests_ok_sent id s); try reflexivity; [now exists name | exact HR].
  - destruct (interval s) as [t|] eqn:E; try discriminate. injection H as <-.
    destruct (inv_interval s HI t E) as [Hc _].
    apply (Requests_ok_sent (selectedId s) s); try reflexivity; try assumption.
    cbn. now rewrite Hc.
  - destruct (existsb _ (inflight s)); try discriminate. injection H as <-.
    apply (Requests_ok_settled n s); try (now destruct r); exact HR.
Qed.

Lemma reachable_Requests_ok (evs : list Event) (s : State) :
  runs evs init = Some s -> Requests_ok s.
Proof.
  intros Hrun.
  assert (H : Inv s /\ Requests_ok s); [|now destruct H].
  revert Hrun. generalize Inv_init Requests_ok_init. generalize init.
  induction evs as [|e evs IH]; intros s0 HI HR Hrun; cbn in Hrun.
  - injection Hrun as <-. now split.
  - destruct (next e s0) as [s1|] eqn:E; [|discriminate].
    apply (IH s1); [| |exact Hrun].
    + now apply (Inv_step toLowerCase e s0 s1).
    + now apply (Requests_ok_step e s0 s1).
Qed.

Lemma live_armed_step (e : Event) (s s' : State) :
  (is_live s = true -> interval s <> None) ->
  next e s = Some s' ->
  is_live s' = true -> interval s' <> None.
Proof.
  intros HP H. destruct e; cbn in H.
  - destruct (phase s); try discriminate. injection H as <-. discriminate.
  - destruct (is_live s); try discriminate. injection H as <-. discriminate.
  - destruct (is_live s) eqn:El; try discriminate. injection H as <-.
    intros _. now apply HP.
  - destruct (is_live s) eqn:El; try discriminate. unfold onClick in H.
    destruct (truthy_string (search s)); try discriminate.
    destruct (nth_error _ i) as [[id name]|]; try discriminate.
    injection H as <-.
    destruct (strict_eq id (selectedId s)); [|discriminate].
    intros _. now apply HP.
  - destruct (interval s) as [t|] eqn:E; try discriminate. injection H as <-.
    intros _. cbn. rewrite E. discriminate.
  - destruct (existsb _ (inflight s)); try discriminate. injection H as <-.
    destruct r; exact HP.
Qed.

Lemma reachable_live_armed (evs : list Event) (s : State) :
  runs evs init = Some s -> is_live s = true -> interval s <> None.
Proof.
  assert (H0 : is_live init = true -> interval init <> None) by discriminate.
  revert H0. generalize init.
  induction evs as [|e evs IH]; intros s0 H0 Hrun; cbn in Hrun.
  - now injection Hrun as <-.
  - destruct (next e s0) as [s1|] eqn:E; [|discriminate].
    apply (IH s1); [|exact Hrun]. now apply live_armed_step with (2 := E).
Qed.

(** X8: in every state the component can reach, the outstanding requests
    carry distinct numbers below the count of issued requests, and each
    of them, like the selection itself, is for a station of the table:
    no request is ever sent for an id without a name. *)
Theorem X8_requests_are_for_table_stations (evs : list Event) (s : State) :
  runs evs init = Some s ->
  NoDup (map fst (inflight s))
  /\ (forall n url, In (n, url) (inflight s) ->
        (n < issued s)%nat
        /\ exists id name, In (id, name) STATIONS /\ url = schedule_url id
                           /\ get STATIONS id = Some name)
  /\ exists name, In (selectedId s, name) STATIONS.
Proof.
  intros Hrun. destruct (reachable_Requests_ok evs s Hrun) as [H1 H2 H3 H4].
  split; [exact H2|]. split; [|exact H4].
  intros n url H. split; [now apply H1 with (url := url)|].
  destruct (H3 n url H) as [id [name [Hin ->]]].
  exists id, name. repeat split; [exact Hin | now apply STATIONS_get].
Qed.

(** X9: the interval is armed exactly while the component is mounted:
    in every reachable state a tick can happen if and only if the
    component is live, so that a failed fetch is retried by the next
    tick and nothing ticks before mount or after unmount. *)
Theorem X9_tick_enabled_iff_mounted (evs : list Event) (s : State) :
  runs evs init = Some s ->
  (is_live s = true <-> exists s', next Tick s = Some s')
  /\ (is_live s = true <-> exists t, interval s = Some t).
Proof.
  intros Hrun.
  pose proof (reachable_Inv toLowerCase evs s Hrun) as [Ht _].
  pose proof (reachable_live_armed evs s Hrun) as Hl.
  assert (H : is_live s = true <-> exists t, interval s = Some t).
  { split.
    - intros H. specialize (Hl H). destruct (interval s) as [t|]; [now exists t|].
      now elim Hl.
    - intros [t H]. destruct (Ht t H) as [_ [_ Hp]]. unfold is_live. now rewrite Hp. }
  split; [|exact H]. rewrite H. cbn. split.
  - intros [t ->]. now eexists.
  - intros [s' H']. destruct (interval s) as [t|]; [now exists t | discriminate].
Qed.

(** X10: the loading flag is one flag for all requests: when a request
    settles while another one is outstanding, the flag goes down, the
    spinner with it, and the other request is still outstanding. *)
Theorem X10_spinner_off_with_request_outstanding
        (n m : nat) (url : jsstring) (r : Settled) (s s' : State) :
  In (m, url) (inflight s) -> m <> n ->
  next (Settle n r) s = Some s' ->
  loading s' = false /\ In (m, url) (inflight s')
  /\ forall v, on_screen s' = Some (Normal v) -> spinner v = false.
Proof.
  intros Hin Hne H. cbn in H.
  destruct (existsb _ (inflight s)); try discriminate. injection H as <-.
  assert (Hl : loading (fetchData_resume r (settle_request n s)) = false)
    by now destruct r.
  split; [exact Hl|]. split.
  - assert (In (m, url) (inflight (settle_request n s))).
    { cbn. apply filter_In. split; [exact Hin|]. cbn.
      apply negb_true_iff. now apply Nat.eqb_neq. }
    now destruct r.
  - intros v Hv. unfold screen in Hv.
    destruct (is_live _); [|discriminate]. injection Hv as Hv.
    unfold App in Hv. destruct (render_main _ _ _); cbn in Hv; [|discriminate].
    injection Hv as <-. exact Hl.
Qed.

(** X11: typing in the search box changes the box and the dropdown and
    nothing else: no request is sent, and the spinner and the schedule
    on screen stay. A tick raises the spinner and leaves the box, the
    dropdown and the schedule on screen as they are. *)
Theorem X11_typing_and_ticking_keep_schedule (s s' : State) (v : View) :
  on_screen s = Some (Normal v) ->
  (forall text, next (Input text) s = Some s' ->
     on_screen s' = Some (Normal {| search_box := text;
                                    dropdown := dropdown_of text;
                                    spinner := spinner v;
                                    main := main v |})
     /\ inflight s' = inflight s /\ issued s' = issued s
     /\ interval s' = interval s /\ selectedId s' = selectedId s)
  /\ (next Tick s = Some s' ->
      on_screen s' = Some (Normal {| search_box := search_box v;
                                     dropdown := dropdown v;
                                     spinner := true;
                                     main := main v |})
      /\ selectedId s' = selectedId s /\ data s' = data s).
Proof.
  intros Hv. unfold screen in Hv. destruct (is_live s) eqn:El; [|discriminate].
  injection Hv as Hv. unfold App in Hv.
  destruct (render_main toLocaleTimeString (data s) (selectedId s)) as [m|e] eqn:Em;
    cbn in Hv; [|discriminate].
  injection Hv as <-. cbn [spinner main search_box dropdown]. split.
  - intros text H. cbn in H. rewrite El in H. injection H as <-.
    repeat split. unfold screen, App. cbn. unfold is_live in El |- *. cbn.
    rewrite El, Em. reflexivity.
  - intros H. cbn in H. destruct (interval s); [|discriminate].
    injection H as <-. repeat split. unfold screen, App. cbn.
    unfold is_live in El |- *. cbn. rewrite El, Em. reflexivity.
Qed.

(** X12: whenever the schedule is on screen its title is defined: it is
    the table's name of the selected station. *)
Theorem X12_title_is_a_station_name (evs : list Event) (s : State) (v : View)
        (title : option jsstring) (platforms : PlatformsView) (updated : jsstring) :
  runs evs init = Some s ->
  on_screen s = Some (Normal v) ->
  main v = Schedule title platforms updated ->
  exists name, title = Some name /\ In (selectedId s, name) STATIONS.
Proof.
  intros Hrun Hv Hm.
  destruct (req_selected s (reachable_Requests_ok evs s Hrun)) as [name Hin].
  exists name. split; [|exact Hin].
  unfold screen in Hv. destruct (is_live s); [|discriminate].
  injection Hv as Hv. unfold App in Hv.
  destruct (render_main toLocaleTimeString (data s) (selectedId s)) as [m|e] eqn:Em;
    cbn in Hv; [|discriminate].
  injection Hv as <-. cbn [main] in Hm. subst m.
  apply render_main_title in Em. rewrite Em. now apply STATIONS_get.
Qed.

End LoopExtras.

Section TimerProperties.

Variable toLowerCase : jsstring -> jsstring.

Local Abbreviation next := (step toLowerCase).
Local Abbreviation runs := (run toLowerCase).

(** An armed interval fires as often as one likes: [n] ticks send [n]
    requests for the id it captured and leave it armed. *)
Lemma ticks_run (t : Timer) (n : nat) (s : State) :
  interval s = Some t -> captured_id t = selectedId s ->
  exists s',
    runs (repeat Tick n) s = Some s'
    /\ inflight s' = inflight s
                     ++ map (fun i => (i, schedule_url (selectedId s)))
                            (seq (issued s) n)
    /\ issued s' = (issued s + n)%nat
    /\ selectedId s' = selectedId s
    /\ interval s' = interval s
    /\ phase s' = phase s.
Proof.
  revert s; induction n as [|n IH]; intros s Hi Hc.
  - exists s. cbn. rewrite app_nil_r, Nat.add_0_r. repeat split.
  - destruct (IH (fetchData (captured_id t) s) Hi Hc)
      as [s' [Hrun [Hin [Hn [Hsel [Hint Hph]]]]]].
    exists s'. cbn [repeat run step]. rewrite Hi. split; [exact Hrun|].
    cbn [fetchData axios_get setLoading inflight issued selectedId interval phase]
      in Hin, Hn, Hsel, Hint, Hph.
    rewrite Hin, Hn, Hsel, Hint, Hph, Hc. cbn [seq map].
    rewrite <- app_assoc. repeat split; first [lia | exact Hi].
Qed.

(** C4: in every state the component can reach while it is mounted, the
    interval is armed with period 20 s and has captured the station
    selected in that state (the effect re-arms it whenever the selection
    changes); a tick can happen, sends the request for the selected
    station and leaves the interval armed, so that any number of ticks
    follow one another, each for the current selection. While the
    component is not mounted no tick can happen. Unmounting is possible
    whenever the component is mounted and clears the interval: no tick
    can follow, and whatever happens afterwards sends no request and
    arms nothing. *)
Theorem C4_tick_fetches_current_selection :
  forall evs s, runs evs init = Some s ->
    (is_live s = true ->
       exists t s',
         interval s = Some t /\ period_ms t = 20000
         /\ captured_id t = selectedId s
         /\ next Tick s = Some s'
         /\ inflight s' = inflight s ++ [(issued s, schedule_url (selectedId s))]
         /\ selectedId s' = selectedId s
         /\ interval s' = interval s
         /\ is_live s' = true)
    /\ (is_live s = true ->
        forall n, exists s',
          runs (repeat Tick n) s = Some s'
          /\ inflight s' = inflight s
                           ++ map (fun i => (i, schedule_url (selectedId s)))
                                  (seq (issued s) n)
          /\ selectedId s' = selectedId s
          /\ interval s' = interval s)
    /\ (is_live s = false -> next Tick s = None)
    /\ (forall s', next Tick s = Some s' ->
       inflight s' = inflight s ++ [(issued s, schedule_url (selectedId s))]
       /\ selectedId s' = selectedId s
       /\ exists t, interval s = Some t /\ period_ms t = 20000
                    /\ captured_id t = selectedId s)
    /\ (is_live s = true -> exists s', next Unmount s = Some s')
    /\ (forall s', next Unmount s = Some s' ->
       interval s' = None /\ next Tick s' = None
       /\ forall evs' s'', runs evs' s' = Some s'' ->
            interval s'' = None /\ next Tick s'' = None
            /\ issued s'' = issued s').
Proof.
  intros evs s Hrun.
  pose proof (reachable_Inv toLowerCase evs s Hrun) as [Ht _].
  pose proof (reachable_live_armed toLowerCase evs s Hrun) as Harmed.
  assert (Htick : forall s', next Tick s = Some s' ->
            inflight s' = inflight s ++ [(issued s, schedule_url (selectedId s))]
            /\ selectedId s' = selectedId s
            /\ exists t, interval s = Some t /\ period_ms t = 20000
                         /\ captured_id t = selectedId s).
  { intros s' H. cbn in H. destruct (interval s) as [t|] eqn:E; [|discriminate].
    injection H as <-. destruct (Ht t eq_refl) as [Hc [Hp _]].
    cbn. rewrite Hc. repeat split. exists t. auto. }
  split; [|split; [|split; [|split; [exact Htick|split]]]].
  - intros Hl. specialize (Harmed Hl).
    destruct (interval s) as [t|] eqn:E; [|now elim Harmed].
    destruct (Ht t eq_refl) as [Hc [Hp _]].
    exists t, (fetchData (captured_id t) s).
    assert (Hn : next Tick s = Some (fetchData (captured_id t) s))
      by (cbn; now rewrite E).
    destruct (Htick _ Hn) as [H1 [H2 _]].
    repeat split; assumption.
  - intros Hl n. specialize (Harmed Hl).
    destruct (interval s) as [t|] eqn:E; [|now elim Harmed].
    destruct (Ht t eq_refl) as [Hc _].
    destruct (ticks_run t n s E Hc) as [s' [H1 [H2 [_ [H3 [H4 _]]]]]].
    exists s'. rewrite <- E. auto.
  - intros Hl. cbn. destruct (interval s) as [t|]; [|reflexivity].
    destruct (Ht t eq_refl) as [_ [_ Hp]]. unfold is_live in Hl.
    rewrite Hp in Hl. discriminate.
  - intros Hl. cbn. rewrite Hl. now eexists.
  - intros s' H. cbn in H. destruct (is_live s); [|discriminate].
    injection H as <-. split; [reflexivity|]. split; [reflexivity|].
    intros evs' s'' H.
    destruct (disposed_run toLowerCase evs' (set_phase Disposed (cleanup s)) s''
                           eq_refl eq_refl H) as [_ [Hi Hn]].
    split; [exact Hi|]. split; [|exact Hn]. cbn. now rewrite Hi.
Qed.

End TimerProperties.

(** Witness of C4: station 1 was selected from the mounted component; the
    interval is armed for it, and the tick fetches it. *)
Lemma C4_witness :
  run lowerASCII [Mount; Input (js "1"); Click 0] init = Some selected_1
  /\ is_live selected_1 = true
  /\ selectedId selected_1 = js "1"
  /\ exists t s',
       interval selected_1 = Some t /\ period_ms t = 20000
       /\ captured_id t = selectedId selected_1
       /\ step lowerASCII Tick selected_1 = Some s'
       /\ inflight s' = inflight selected_1
                        ++ [(issued selected_1, schedule_url (selectedId selected_1))]
       /\ selectedId s' = selectedId selected_1
       /\ interval s' = interval selected_1
       /\ is_live s' = true.
Proof.
  assert (H : run lowerASCII [Mount; Input (js "1"); Click 0] init = Some selected_1)
    by (vm_compute; reflexivity).
  split; [exact H|]. split; [reflexivity|]. split; [reflexivity|].
  apply (proj1 (C4_tick_fetches_current_selection lowerASCII
                  [Mount; Input (js "1"); Click 0] selected_1 H)).
  reflexivity.
Defined.

Lemma get_Some_In (o : Object) (k v : jsstring) :
  get o k = Some v -> In (k, v) o.
Proof.
  induction o as [|[k0 v0] o IH]; cbn [get]; [discriminate|].
  destruct (strict_eq k0 k) eqn:E.
  - apply strict_eq_iff in E. intros [= ->]. left. now subst.
  - intros H. right. now apply IH.
Qed.

Section LogExtras.

Variable toLowerCase : jsstring -> jsstring.

Local Abbreviation next := (step toLowerCase).
Local Abbreviation runs := (run toLowerCase).

Lemma console_step (e : Event) (s s' : State) :
  next e s = Some s' -> console s' = console s ++ rejections [e].
Proof.
  intros H. destruct e; cbn in H; cbn [rejections]; rewrite ?app_nil_r.
  - destruct (phase s); try discriminate. now injection H as <-.
  - destruct (is_live s); try discriminate. now injection H as <-.
  - destruct (is_live s); try discriminate. now injection H as <-.
  - destruct (is_live s); try discriminate. unfold onClick in H.
    destruct (truthy_string (search s)); try discriminate.
    destruct (nth_error _ i) as [[id name]|]; try discriminate.
    injection H as <-. now destruct (strict_eq id (selectedId s)).
  - destruct (interval s); try discriminate. now injection H as <-.
  - destruct (existsb _ (inflight s)); try discriminate. injection H as <-.
    destruct r; cbn; now rewrite ?app_nil_r.
Qed.

Lemma rejections_cons (e : Event) (evs : list Event) :
  rejections (e :: evs) = rejections [e] ++ rejections evs.
Proof. destruct e as [| | | | |n [d|err]]; reflexivity. Qed.

(** X13: the console holds exactly the causes of the rejected requests,
    in the order in which they were rejected: every transport failure
    is logged once, also after unmount, and nothing else is. *)
Theorem X13_console_holds_the_rejections (evs : list Event) (s0 s : State) :
  runs evs s0 = Some s -> console s = console s0 ++ rejections evs.
Proof.
  revert s0; induction evs as [|e evs IH]; intros s0 H; cbn [run] in H.
  - injection H as <-. cbn. now rewrite app_nil_r.
  - destruct (next e s0) as [s1|] eqn:E; [|discriminate].
    rewrite (IH s1 H), (console_step e s0 s1 E), (rejections_cons e evs).
    symmetry. apply app_assoc.
Qed.

End LogExtras.

(** X14: looking a key up in [STATIONS] and enumerating its entries
    agree on the names: [STATIONS[k]] is the string [v] exactly when
    [(k, v)] is among [Object.entries(STATIONS)], and no key is listed
    with two names. *)
Theorem X14_lookup_agrees_with_entries (k : jsstring) :
  (forall v, get STATIONS k = Some v <-> In (k, v) (Object_entries STATIONS))
  /\ (forall v v', In (k, v) (Object_entries STATIONS) ->
                   In (k, v') (Object_entries STATIONS) -> v = v').
Proof.
  rewrite entries_STATIONS.
  split.
  - intros v. split; [apply get_Some_In | apply STATIONS_get].
  - intros v v' H H'. apply STATIONS_get in H, H'. congruence.
Qed.

(** Witness of X13: a rejection before and one after unmount. *)
Lemma X13_witness :
  exists s,
    run lowerASCII
        [Mount; Tick; Settle 1 (Rejected NetworkError); Unmount;
         Settle 0 (Rejected (BadStatus 503))] init = Some s
    /\ console s = [NetworkError; BadStatus 503].
Proof.
  assert (H : exists s,
             run lowerASCII
                 [Mount; Tick; Settle 1 (Rejected NetworkError); Unmount;
                  Settle 0 (Rejected (BadStatus 503))] init = Some s)
    by (eexists; vm_compute; reflexivity).
  destruct H as [s H]. exists s. split; [exact H|].
  exact (X13_console_holds_the_rejections lowerASCII _ init s H).
Defined.

(** Witness of X7: the click on the only item found for "1". *)
Lemma X7_witness :
  step lowerASCII (Click 0) typed_1 = Some selected_1
  /\ exists id name,
       nth_error (filteredStations lowerASCII (search typed_1)) 0 = Some (id, name)
       /\ selectedId selected_1 = id
       /\ get STATIONS (selectedId selected_1) = Some name
       /\ data selected_1 = data typed_1.
Proof.
  split; [reflexivity|].
  destruct (X7_click_selects_item lowerASCII 0 typed_1 selected_1 eq_refl)
    as [id [name [H1 [H2 [H3 [_ [_ [H4 _]]]]]]]].
  exists id, name. auto.
Defined.

(** Witness of X8: two requests for station 600 are outstanding. *)
Lemma X8_witness :
  run lowerASCII [Mount; Tick] init = Some refreshing
  /\ List.length (inflight refreshing) = 2%nat
  /\ NoDup (map fst (inflight refreshing)).
Proof.
  split; [reflexivity|]. split; [reflexivity|].
  apply (proj1 (X8_requests_are_for_table_stations lowerASCII
                  [Mount; Tick] refreshing eq_refl)).
Defined.

(** Witness of X9: the mounted component can tick; before mount and
    after unmount there is no tick. *)
Lemma X9_witness :
  run lowerASCII [Mount] init = Some mounted
  /\ (is_live mounted = true <-> exists s', step lowerASCII Tick mounted = Some s')
  /\ (is_live init = true <-> exists s', step lowerASCII Tick init = Some s').
Proof.
  split; [reflexivity|]. split.
  - apply (proj1 (X9_tick_enabled_iff_mounted lowerASCII [Mount] mounted eq_refl)).
  - apply (proj1 (X9_tick_enabled_iff_mounted lowerASCII [] init eq_refl)).
Defined.

(** Witness of X10: of the two requests of [refreshing] the first
    settles. *)
Lemma X10_witness :
  In (1%nat, schedule_url (js "600")) (inflight refreshing)
  /\ exists s',
       step lowerASCII (Settle 0 (Fulfilled payload_yuen_long)) refreshing = Some s'
       /\ loading s' = false
       /\ In (1%nat, schedule_url (js "600")) (inflight s').
Proof.
  assert (H : In (1%nat, schedule_url (js "600")) (inflight refreshing))
    by (right; left; reflexivity).
  split; [exact H|]. eexists. split; [reflexivity|].
  destruct (X10_spinner_off_with_request_outstanding lowerASCII (fun t => t)
              0%nat 1%nat (schedule_url (js "600")) (Fulfilled payload_yuen_long)
              refreshing _ H (fun E => Nat.neq_succ_0 0 E) eq_refl) as [H1 [H2 _]].
  split; [exact H1 | exact H2].
Defined.

(** Witness of X11: typing "tin" while the schedule of Yuen Long is on
    screen. *)
Lemma X11_witness :
  exists v s',
    screen lowerASCII (fun t => t) showing = Some (Normal v)
    /\ step lowerASCII (Input (js "tin")) showing = Some s'
    /\ screen lowerASCII (fun t => t) s'
       = Some (Normal {| search_box := js "tin";
                         dropdown := render_dropdown lowerASCII (js "tin");
                         spinner := spinner v;
                         main := main v |})
    /\ inflight s' = inflight showing.
Proof.
  do 2 eexists. split; [vm_compute; reflexivity|]. split; [reflexivity|].
  destruct (proj1 (X11_typing_and_ticking_keep_schedule lowerASCII (fun t => t)
                     showing (setSearch (js "tin") showing) _ eq_refl)
                  (js "tin") eq_refl) as [H1 [H2 _]].
  split; [exact H1 | exact H2].
Defined.

(** Witness of X12: the title over the schedule of Yuen Long. *)
Lemma X12_witness :
  run lowerASCII [Mount; Settle 0 (Fulfilled payload_yuen_long)] init = Some showing
  /\ exists v title platforms updated,
       screen lowerASCII (fun t => t) showing = Some (Normal v)
       /\ main v = Schedule title platforms updated
       /\ exists name, title = Some name /\ In (selectedId showing, name) STATIONS.
Proof.
  split; [reflexivity|]. do 4 eexists.
  split; [vm_compute; reflexivity|]. split; [reflexivity|].
  apply (X12_title_is_a_station_name lowerASCII (fun t => t)
           [Mount; Settle 0 (Fulfilled payload_yuen_long)] showing _ _ _ _
           eq_refl eq_refl eq_refl).
Defined.
